(** * trello-to-github: entity resolution, plan validation and import

    A shallow embedding of [src/index.ts] (with the record shapes of
    [src/lib/schemas.ts]) and the properties of its resolvers, its plan
    validator, its card transformer, its status synchroniser and its
    import loop.

    Conventions of the embedding:
    - JavaScript strings are [string]; integers ([z.int()], GitHub ids and
      numbers, [Date.getTime()]) are [Z];
    - a value of type [string | number] is a [Ref];
    - [Array.prototype.find] is [List.find], [filter] is [List.filter];
    - a [Map<string, V>] is a [gmap string V];
    - calls that change the target (GitHub) are recorded in a trace, and the
      target's answers come from a [TargetClient]. *)

From Stdlib Require Import ZArith String Ascii List Bool Lia Sorted Permutation.
From stdpp Require Import base option gmap strings list.

Local Open Scope string_scope.
Local Open Scope list_scope.
Local Open Scope Z_scope.

(** ** JavaScript values used by the program *)

(** [z.union([z.string().min(1), z.int()])]: a reference by name or by id. *)
Inductive Ref : Type :=
| RefStr (s : string)
| RefInt (n : Z).

#[global] Instance Ref_eq_dec : EqDecision Ref.
Proof. solve_decision. Defined.

(** [Number.isInteger(r)] *)
Definition isInteger (r : Ref) : bool :=
  match r with RefInt _ => true | RefStr _ => false end.

(** [typeof r === "string"] *)
Definition isString (r : Ref) : bool :=
  match r with RefStr _ => true | RefInt _ => false end.

(** [n === r] for a number [n]: strict equality never holds across types. *)
Definition num_seq (n : Z) (r : Ref) : bool :=
  match r with RefInt m => bool_decide (n = m) | RefStr _ => false end.

(** [s === r] for a string [s]. *)
Definition str_seq (s : string) (r : Ref) : bool :=
  match r with RefStr t => bool_decide (s = t) | RefInt _ => false end.

(** Truthiness of a [string | number]: the empty string and [0] are falsy. *)
Definition truthy (r : Ref) : bool :=
  match r with
  | RefStr s => negb (bool_decide (s = EmptyString))
  | RefInt n => negb (bool_decide (n = 0))
  end.

(** Truthiness of an optional reference ([undefined] is falsy). *)
Definition truthy_opt (r : option Ref) : bool :=
  match r with Some r => truthy r | None => false end.

(** The line feed, written ["\n"] in the source. *)
Definition nl : string := String (ascii_of_nat 10) EmptyString.

(** ** The source board ([BoardExport] of [src/lib/schemas.ts]) *)

Module TrelloList.
Record t : Type := mk { id : string; name : string; closed : bool }.
End TrelloList.

Module TrelloMember.
Record t : Type := mk { id : string; fullName : string; username : string }.
End TrelloMember.

Module TrelloLabel.
Record t : Type := mk { id : string; name : string; color : string; uses : Z }.
End TrelloLabel.

Module Attachment.
Record t : Type := mk { id : string; name : string; url : string }.
End Attachment.

Inductive CheckState : Type := complete | incomplete.

Module CheckItem.
Record t : Type := mk { id : string; name : string; state : CheckState }.
End CheckItem.

Module Checklist.
Record t : Type :=
  mk { id : string; name : string; idCard : string; checkItems : list CheckItem.t }.
End Checklist.

(** A comment action; [date] is [date.getTime()]. *)
Module Comment.
Record t : Type :=
  mk { id : string;
       memberCreator_id : string;
       memberCreator_username : string;
       idCard : string;
       text : string;
       date : Z }.
End Comment.

(** [z.union([commentCard object, z.object({})])]: every other action is
    stripped to an empty object. *)
Inductive Action : Type :=
| CommentCard (c : Comment.t)
| OtherAction.

Module Card.
Record t : Type :=
  mk { id : string;
       name : string;
       url : string;
       closed : bool;
       desc : string;
       idChecklists : list string;
       idList : string;
       idMembers : list string;
       labels : list TrelloLabel.t;
       attachments : list Attachment.t }.
End Card.

Module Board.
Record t : Type :=
  mk { name : string;
       lists : list TrelloList.t;
       members : list TrelloMember.t;
       actions : list Action;
       cards : list Card.t;
       labels : list TrelloLabel.t;
       checklists : list Checklist.t }.
End Board.

(** ** The mapping configuration ([MapFormat] of [src/lib/schemas.ts]) *)

(** [z.enum(["organization", "user"])] *)
Inductive OwnerType : Type := owner_organization | owner_user.

Inductive Owner : Type :=
| OwnerObj (type : OwnerType) (login : string)
| OwnerStr (login : string).

(** [z.discriminatedUnion("create", ...)]: a lookup rule ([create: false])
    refers to a label by name or id, a create rule ([create: true]) names the
    label to create and may give it a colour. *)
Inductive LabelRule : Type :=
| LookupRule (trello : string) (github : Ref)
| CreateRule (trello : string) (github : string) (color : option string).

Definition rule_trello (r : LabelRule) : string :=
  match r with LookupRule t _ => t | CreateRule t _ _ => t end.

Definition rule_create (r : LabelRule) : bool :=
  match r with LookupRule _ _ => false | CreateRule _ _ _ => true end.

Module UserRule.
Record t : Type := mk { trello : string; github : string }.
End UserRule.

Module ListRule.
Record t : Type :=
  mk { list : string;
       status : option Ref;
       create : bool;
       label : option Ref;
       milestone : option Ref }.
End ListRule.

Module MapFormat.
Record t : Type :=
  mk { owner : Owner;
       repo : string;
       project : option Z;
       labels : list LabelRule;
       users : list UserRule.t;
       lists : list ListRule.t;
       skip_lists : list string }.
End MapFormat.

(** ** The target snapshot *)

Module GhLabel.
Record t : Type := mk { id : Z; name : string; color : string }.
End GhLabel.

(** [type MilestoneInfo = { id: number; number: number; title: string }] *)
Module MilestoneInfo.
Record t : Type := mk { id : Z; number : Z; title : string }.
End MilestoneInfo.

(** [StatusFieldInfo["options"][number]] *)
Module StatusOption.
Record t : Type := mk { id : string; name : string; color : string }.
End StatusOption.

(** What [getProjectInfo] returns for a configured project. *)
Module ProjectInfo.
Record t : Type :=
  mk { projectId : string;
       projectName : string;
       statusFieldId : string;
       statusFieldOptions : list StatusOption.t }.
End ProjectInfo.

(** ** Resolved labels *)

(** Modelled from the spec: the [Label] type of [src/lib/label.ts], which is
    imported by [src/index.ts] but is not among the sources.  The variants and
    their fields are those the program builds and reads: [skipped],
    [toCreate], [mapped] and [missing] carry the source label; [listMapped]
    and [missingList] carry the source list. *)
Inductive Label : Type :=
| skipped (trello : TrelloLabel.t)
| toCreate (trello : TrelloLabel.t) (github_name : string) (github_color : option string)
| mapped (trello : TrelloLabel.t) (github : GhLabel.t)
| missing (trello : TrelloLabel.t) (githubLookup : Ref)
| missingList (githubLookup : Ref) (trelloList : TrelloList.t)
| listMapped (github : GhLabel.t) (trelloList : TrelloList.t).

(** ** Identity matching against target labels and milestones *)

(** [(Number.isInteger(ref) && ghLabel.id === ref) || ghLabel.name === ref] *)
Definition label_matches (ref : Ref) (ghLabel : GhLabel.t) : bool :=
  (isInteger ref && num_seq (GhLabel.id ghLabel) ref)
  || str_seq (GhLabel.name ghLabel) ref.

(** [(Number.isInteger(ref) && (m.id === ref || m.number === ref)) || m.title === ref] *)
Definition milestone_matches (ref : Ref) (m : MilestoneInfo.t) : bool :=
  (isInteger ref
   && (num_seq (MilestoneInfo.id m) ref || num_seq (MilestoneInfo.number m) ref))
  || str_seq (MilestoneInfo.title m) ref.

(** [field.id === ref || field.name === ref] *)
Definition status_matches (ref : Ref) (field : StatusOption.t) : bool :=
  str_seq (StatusOption.id field) ref || str_seq (StatusOption.name field) ref.

(** [list.id === key || list.name === key] *)
Definition list_matches (key : string) (l : TrelloList.t) : bool :=
  bool_decide (TrelloList.id l = key) || bool_decide (TrelloList.name l = key).

(** ** The label resolver: the loop over [trello.labels] *)

(** One iteration of [for (const trelloLabel of trello.labels)]: the entry
    pushed onto [labels]. *)
Definition resolveLabel (rules : list LabelRule) (githubLabels : list GhLabel.t)
    (trelloLabel : TrelloLabel.t) : Label :=
  match find (fun labelMap => bool_decide (rule_trello labelMap = TrelloLabel.name trelloLabel)) rules with
  | None => skipped trelloLabel
  | Some (CreateRule _ github color) => toCreate trelloLabel github color
  | Some (LookupRule _ github) =>
      match find (label_matches github) githubLabels with
      | None => missing trelloLabel github
      | Some githubLabel => mapped trelloLabel githubLabel
      end
  end.

(** The whole loop: [labels] after it, starting from the empty array. *)
Definition resolveLabels (rules : list LabelRule) (githubLabels : list GhLabel.t)
    (trelloLabels : list TrelloLabel.t) : list Label :=
  fold_left (fun labels trelloLabel => labels ++ [resolveLabel rules githubLabels trelloLabel])
    trelloLabels [].

(** ** The list-rule resolver: the loop over [map.lists] *)

(** The variables the resolvers fill in: [labels], [invalidLists],
    [validMilestones], [missingMilestones], [usedStatusWithoutProject],
    [validStatusFields], [missingStatusFields] and [statusFieldsToCreate]. *)
Module Resolution.
Record t : Type :=
  mk { labels : list Label;
       invalidLists : list string;
       validMilestones : gmap string MilestoneInfo.t;
       missingMilestones : list Ref;
       usedStatusWithoutProject : bool;
       validStatusFields : gmap string StatusOption.t;
       missingStatusFields : list Ref;
       (* { trelloListId, name } *)
       statusFieldsToCreate : list (string * string) }.

(** The declarations before the loops: empty arrays and maps, flag unset. *)
Definition init : t := mk [] [] ∅ [] false ∅ [] [].

Definition push_label (l : Label) (st : t) : t :=
  mk (labels st ++ [l]) (invalidLists st) (validMilestones st) (missingMilestones st)
     (usedStatusWithoutProject st) (validStatusFields st) (missingStatusFields st)
     (statusFieldsToCreate st).

Definition push_invalidList (k : string) (st : t) : t :=
  mk (labels st) (invalidLists st ++ [k]) (validMilestones st) (missingMilestones st)
     (usedStatusWithoutProject st) (validStatusFields st) (missingStatusFields st)
     (statusFieldsToCreate st).

Definition set_validMilestone (k : string) (m : MilestoneInfo.t) (st : t) : t :=
  mk (labels st) (invalidLists st) (<[k := m]> (validMilestones st)) (missingMilestones st)
     (usedStatusWithoutProject st) (validStatusFields st) (missingStatusFields st)
     (statusFieldsToCreate st).

Definition push_missingMilestone (r : Ref) (st : t) : t :=
  mk (labels st) (invalidLists st) (validMilestones st) (missingMilestones st ++ [r])
     (usedStatusWithoutProject st) (validStatusFields st) (missingStatusFields st)
     (statusFieldsToCreate st).

Definition set_usedStatusWithoutProject (st : t) : t :=
  mk (labels st) (invalidLists st) (validMilestones st) (missingMilestones st)
     true (validStatusFields st) (missingStatusFields st)
     (statusFieldsToCreate st).

Definition set_validStatusField (k : string) (o : StatusOption.t) (st : t) : t :=
  mk (labels st) (invalidLists st) (validMilestones st) (missingMilestones st)
     (usedStatusWithoutProject st) (<[k := o]> (validStatusFields st)) (missingStatusFields st)
     (statusFieldsToCreate st).

Definition push_missingStatusField (r : Ref) (st : t) : t :=
  mk (labels st) (invalidLists st) (validMilestones st) (missingMilestones st)
     (usedStatusWithoutProject st) (validStatusFields st) (missingStatusFields st ++ [r])
     (statusFieldsToCreate st).

Definition push_statusFieldToCreate (k name : string) (st : t) : t :=
  mk (labels st) (invalidLists st) (validMilestones st) (missingMilestones st)
     (usedStatusWithoutProject st) (validStatusFields st) (missingStatusFields st)
     (statusFieldsToCreate st ++ [(k, name)]).
End Resolution.

(** How a block of the loop body ends: it falls through to the next block
    ([Next]) or executes [continue] ([Continue]). *)
Inductive Flow : Type :=
| Next (st : Resolution.t)
| Continue (st : Resolution.t).

Definition flow_bind (f : Flow) (k : Resolution.t -> Flow) : Flow :=
  match f with Next st => k st | Continue st => Continue st end.

Definition flow_state (f : Flow) : Resolution.t :=
  match f with Next st => st | Continue st => st end.

(** The name of a reference, as [statusFieldsToCreate] stores it (only
    reached when the reference is a string). *)
Definition ref_name (r : Ref) : string :=
  match r with RefStr s => s | RefInt _ => EmptyString end.

Section ListRules.
Variable githubLabels : list GhLabel.t.
Variable githubMilestones : list MilestoneInfo.t.
Variable projectInfo : option ProjectInfo.t.
Variable trelloLists : list TrelloList.t.

(** [if (mapping.label) { ... }] *)
Definition labelBlock (mapping : ListRule.t) (trelloList : TrelloList.t)
    (st : Resolution.t) : Flow :=
  match ListRule.label mapping with
  | Some ref =>
      if truthy ref then
        match find (label_matches ref) githubLabels with
        | None => Continue (Resolution.push_label (missingList ref trelloList) st)
        | Some githubLabel => Next (Resolution.push_label (listMapped githubLabel trelloList) st)
        end
      else Next st
  | None => Next st
  end.

(** [if (mapping.milestone) { ... }] *)
Definition milestoneBlock (mapping : ListRule.t) (trelloList : TrelloList.t)
    (st : Resolution.t) : Flow :=
  match ListRule.milestone mapping with
  | Some ref =>
      if truthy ref then
        match find (milestone_matches ref) githubMilestones with
        | None => Continue (Resolution.push_missingMilestone ref st)
        | Some githubMilestone =>
            Next (Resolution.set_validMilestone (TrelloList.id trelloList) githubMilestone st)
        end
      else Next st
  | None => Next st
  end.

(** [if (projectInfo && mapping.status) { if (!projectInfo) { ... } ... }] *)
Definition statusBlock (mapping : ListRule.t) (trelloList : TrelloList.t)
    (st : Resolution.t) : Flow :=
  if bool_decide (is_Some projectInfo) && truthy_opt (ListRule.status mapping) then
    match projectInfo, ListRule.status mapping with
    | None, _ => Continue (Resolution.set_usedStatusWithoutProject st)
    | Some info, Some ref =>
        match find (status_matches ref) (ProjectInfo.statusFieldOptions info) with
        | None =>
            if ListRule.create mapping && isString ref then
              Continue (Resolution.push_statusFieldToCreate
                          (TrelloList.id trelloList) (ref_name ref) st)
            else
              Continue (Resolution.push_missingStatusField ref st)
        | Some projectStatusField =>
            Next (Resolution.set_validStatusField
                    (TrelloList.id trelloList) projectStatusField st)
        end
    | Some _, None => Next st
    end
  else Next st.

(** One iteration of [for (const mapping of map.lists)]. *)
Definition resolveListRule (st : Resolution.t) (mapping : ListRule.t) : Resolution.t :=
  match find (list_matches (ListRule.list mapping)) trelloLists with
  | None => Resolution.push_invalidList (ListRule.list mapping) st
  | Some trelloList =>
      flow_state
        (flow_bind (labelBlock mapping trelloList st) (fun st1 =>
         flow_bind (milestoneBlock mapping trelloList st1) (fun st2 =>
         statusBlock mapping trelloList st2)))
  end.

(** The whole loop. *)
Definition resolveListRules (rules : list ListRule.t) (st : Resolution.t) : Resolution.t :=
  fold_left resolveListRule rules st.
End ListRules.

(** ** Skipped lists: the loop over [map.skip.lists] *)

(** [skippedLists] and [invalidLists] after the loop. *)
Definition resolveSkips (trelloLists : list TrelloList.t) (keys : list string)
    (invalidLists : list string) : list TrelloList.t * list string :=
  fold_left
    (fun '(skippedLists, invalidLists) listKey =>
       match find (list_matches listKey) trelloLists with
       | Some trelloList => (skippedLists ++ [trelloList], invalidLists)
       | None => (skippedLists, invalidLists ++ [listKey])
       end)
    keys ([], invalidLists).

(** ** Users *)

(** The outcome of [GET /users/{username}]: found (with [data.login]), a 404,
    or any other failure. *)
Inductive UserLookup : Type :=
| UserFound (login : string)
| UserNotFound
| UserLookupFailed.

(** An entry of [users]: [{ trelloName, github }] for a user the target
    knows, [{ trelloName, githubName, github: null }] for one it does not. *)
Inductive Member : Type :=
| verified (trelloName : string) (login : string)
| unverified (trelloName : string) (githubName : string).

Definition member_trelloName (m : Member) : string :=
  match m with verified t _ => t | unverified t _ => t end.

(** [mem.github] as a condition. *)
Definition member_has_github (m : Member) : bool :=
  match m with verified _ _ => true | unverified _ _ => false end.

(** The loop over [map.users]; [None] when a lookup fails with anything but a
    404 and the exception leaves the program. *)
Fixpoint resolveUsers (lookup : string -> UserLookup) (rules : list UserRule.t)
    (users : list Member) : option (list Member) :=
  match rules with
  | [] => Some users
  | user :: rest =>
      match lookup (UserRule.github user) with
      | UserFound login => resolveUsers lookup rest (users ++ [verified (UserRule.trello user) login])
      | UserNotFound =>
          resolveUsers lookup rest (users ++ [unverified (UserRule.trello user) (UserRule.github user)])
      | UserLookupFailed => None
      end
  end.

(** ** Sorting comments by date *)

(** [commentActions.sort((a, b) => a.date.getTime() - b.date.getTime())]:
    [Array.prototype.sort] is a stable sort, so its result is the one of this
    stable insertion sort. *)
Fixpoint insert_by_date (a : Comment.t) (l : list Comment.t) : list Comment.t :=
  match l with
  | [] => [a]
  | b :: l' =>
      if Z.leb (Comment.date a) (Comment.date b) then a :: b :: l'
      else b :: insert_by_date a l'
  end.

Fixpoint sort_by_date (l : list Comment.t) : list Comment.t :=
  match l with
  | [] => []
  | a :: l' => insert_by_date a (sort_by_date l')
  end.

(** ** The card transformer *)

(** The separator between the sections of an issue body. *)
Definition separator : string := nl +:+ nl +:+ "---" +:+ nl +:+ nl.

(** A string as a condition: the empty string is falsy. *)
Definition nonempty (s : string) : bool := negb (bool_decide (s = EmptyString)).

Section Transformer.
Variable trello : Board.t.
Variable validMembers : list Member.
Variable mappedLabels : list Label.
(** [Date.prototype.toLocaleDateString] of the host, on [getTime()]. *)
Variable toLocaleDateString : Z -> string.

Definition mapMemberId (trelloMemberId : string) : option string :=
  match find (fun mem => bool_decide (TrelloMember.id mem = trelloMemberId))
             (Board.members trello) with
  | None => None
  | Some trelloMember =>
      match find (fun mem =>
                    bool_decide (member_trelloName mem ∈
                                   [TrelloMember.id trelloMember;
                                    TrelloMember.username trelloMember;
                                    TrelloMember.fullName trelloMember]))
                 validMembers with
      | Some (verified _ login) => Some login
      | Some (unverified _ _) => None
      | None => None
      end
  end.

Definition mapMemberIds (trelloMemberIds : list string) : list string :=
  omap mapMemberId trelloMemberIds.

(** The lines pushed for one checklist. *)
Definition checklistLines (checklist : Checklist.t) : list string :=
  ("### " +:+ Checklist.name checklist)
    :: map (fun item =>
              match CheckItem.state item with
              | complete => "- [x] " +:+ CheckItem.name item
              | incomplete => "- [ ] " +:+ CheckItem.name item
              end)
           (Checklist.checkItems checklist).

(** The checklists a card links to that the board has. *)
Definition linkedChecklists (card : Card.t) : list Checklist.t :=
  omap (fun id => find (fun checklist => bool_decide (Checklist.id checklist = id))
                       (Board.checklists trello))
       (Card.idChecklists card).

Definition getChecklistContentForCard (card : Card.t) : option string :=
  let checklists := linkedChecklists card in
  if (length checklists <? 1)%nat then None
  else Some (String.concat nl
               ((nl +:+ "## Checklists") :: concat (map checklistLines checklists))).

(** The provenance line. *)
Definition provenance (card : Card.t) : string :=
  "> Migrated from [Trello Card](" +:+ Card.url card +:+ ")" +:+ nl.

(** The attachment list. *)
Definition attachmentLines (card : Card.t) : string :=
  String.concat nl
    (map (fun attachment =>
            "- [" +:+ Attachment.name attachment +:+ "](" +:+ Attachment.url attachment +:+ ")")
         (Card.attachments card)).

(** [if (checklistStr)]: [null] and the empty string are falsy. *)
Definition truthy_str (s : option string) : bool :=
  match s with Some s => nonempty s | None => false end.

Definition getDescriptionForCard (card : Card.t) : string :=
  let body := EmptyString in
  let body := if nonempty (Card.desc card) then body +:+ Card.desc card else body in
  let checklistStr := getChecklistContentForCard card in
  let body :=
    if truthy_str checklistStr then
      let body := if nonempty (Card.desc card) then body +:+ separator else body in
      body +:+ default EmptyString checklistStr
    else body in
  let body :=
    if nonempty (Card.desc card) || truthy_str checklistStr then body +:+ separator
    else body in
  let body := body +:+ provenance card in
  body +:+ attachmentLines card.

(** [found.github.name] / [listLabel.github.name] *)
Definition label_github_name (l : Label) : option string :=
  match l with
  | toCreate _ name _ => Some name
  | mapped _ github => Some (GhLabel.name github)
  | listMapped github _ => Some (GhLabel.name github)
  | _ => None
  end.

Definition is_listMapped (l : Label) : bool :=
  match l with listMapped _ _ => true | _ => false end.

(** [label.trello.name === trelloName] (no [trello] on list-level entries) *)
Definition label_trello_name_is (trelloName : string) (l : Label) : bool :=
  match l with
  | skipped t | toCreate t _ _ | mapped t _ | missing t _ =>
      bool_decide (TrelloLabel.name t = trelloName)
  | _ => false
  end.

(** [label.trelloList.id === idList] *)
Definition label_list_id_is (idList : string) (l : Label) : bool :=
  match l with
  | listMapped _ trelloList | missingList _ trelloList =>
      bool_decide (TrelloList.id trelloList = idList)
  | _ => false
  end.

Definition getLabelsForCard (card : Card.t) : list string :=
  let res :=
    omap (fun trelloName =>
            match find (fun label => negb (is_listMapped label)
                                     && label_trello_name_is trelloName label)
                       mappedLabels with
            | Some found => label_github_name found
            | None => None
            end)
         (map TrelloLabel.name (Card.labels card)) in
  match find (fun label => is_listMapped label && label_list_id_is (Card.idList card) label)
             mappedLabels with
  | Some listLabel =>
      match label_github_name listLabel with
      | Some name => res ++ [name]
      | None => res
      end
  | None => res
  end.

(** The comment actions of a card, before sorting. *)
Definition commentActions (card : Card.t) : list Comment.t :=
  omap (fun action =>
          match action with
          | CommentCard c =>
              if bool_decide (Comment.idCard c = Card.id card) then Some c else None
          | OtherAction => None
          end)
       (Board.actions trello).

(** The string pushed for one comment action. *)
Definition renderComment (action : Comment.t) : string :=
  let member := mapMemberId (Comment.memberCreator_id action) in
  let memberString :=
    if truthy_str member then "@" +:+ default EmptyString member
    else "`@" +:+ Comment.memberCreator_username action +:+ "`" in
  let header :=
    "## " +:+ memberString +:+ " • " +:+ toLocaleDateString (Comment.date action) in
  header +:+ nl +:+ Comment.text action.

Definition getCommentsForCard (card : Card.t) : list string :=
  map renderComment (sort_by_date (commentActions card)).
End Transformer.

(** ** The target: mutating calls, their trace, and the client *)

(** A call that changes the target. *)
Inductive Call : Type :=
(* POST /repos/{owner}/{repo}/labels *)
| CreateLabel (name : string) (color : option string)
(* POST /repos/{owner}/{repo}/issues *)
| CreateIssue (title body : string) (labels assignees : list string) (milestone : option Z)
(* POST /repos/{owner}/{repo}/issues/{issue_number}/comments *)
| CreateComment (issue_number : Z) (body : string)
(* mutation addProjectV2ItemById *)
| AddProjectItem (projectId contentId : string)
(* mutation updateProjectV2ItemFieldValue *)
| UpdateItemStatus (projectId itemId fieldId singleSelectOptionId : string).

(** The mutating calls issued so far, oldest first. *)
Definition Trace : Type := list Call.

(** The outcome of a label creation: done, refused with status 422 (the
    label exists), or any other failure. *)
Inductive LabelOutcome : Type := LabelCreated | LabelExists | LabelFailed.

(** A node of the project's [items] connection, as the query returns it:
    [content] is [Some (number, title)] for an issue, [status] is
    [fieldValueByName?.name]. *)
Module ProjectNode.
Record t : Type :=
  mk { id : string; content : option (Z * string); status : option string }.
End ProjectNode.

(** An element of [existingItems]. *)
Module ExistingItem.
Record t : Type :=
  mk { id : string; issueNumber : Z; issueTitle : string; currentStatus : option string }.
End ExistingItem.

(** The target system as the program sees it.  The snapshot is read once;
    the answer to a mutating call may depend on the calls made before it.
    [None] and [false] stand for an exception. *)
Module Target.
Record t : Type :=
  mk { githubLabels : list GhLabel.t;
       githubMilestones : list MilestoneInfo.t;
       lookupUser : string -> UserLookup;
       fetchProject : Z -> option ProjectInfo.t;
       projectItemPages : list (list ProjectNode.t);
       createLabel : Trace -> string -> option string -> LabelOutcome;
       (* the issue's number and node_id *)
       createIssue : Trace -> string -> string -> list string -> list string -> option Z
                     -> option (Z * string);
       createComment : Trace -> Z -> string -> bool;
       (* the item's id *)
       addProjectItem : Trace -> string -> string -> option string;
       updateItemStatus : Trace -> string -> string -> string -> string -> bool }.
End Target.

(** Computations that issue mutating calls and may throw: the trace is
    threaded, [None] is an exception that nothing catches. *)
Definition Exec (A : Type) : Type := Trace -> Trace * option A.

Definition ret {A} (a : A) : Exec A := fun t => (t, Some a).

Definition bind {A B} (m : Exec A) (k : A -> Exec B) : Exec B :=
  fun t =>
    match m t with
    | (t', Some a) => k a t'
    | (t', None) => (t', None)
    end.

Declare Scope exec_scope.
Delimit Scope exec_scope with exec.
Notation "x <- m ;; k" := (bind m (fun x => k))
  (at level 100, m at next level, right associativity) : exec_scope.
Notation "m ;;; k" := (bind m (fun _ => k))
  (at level 100, right associativity) : exec_scope.

(** [for (const x of l) { await body(x) }] *)
Fixpoint forM_ {A} (l : list A) (body : A -> Exec unit) : Exec unit :=
  match l with
  | [] => ret tt
  | x :: l' => bind (body x) (fun _ => forM_ l' body)
  end.

(** ** Small string helpers of the host *)

(** White space of [String.prototype.trim], within ASCII. *)
Definition is_space (c : ascii) : bool :=
  let n := nat_of_ascii c in
  ((9 <=? n) && (n <=? 13))%nat || (n =? 32)%nat.

Fixpoint trim_start (s : string) : string :=
  match s with
  | String c s' => if is_space c then trim_start s' else s
  | EmptyString => EmptyString
  end.

Fixpoint trim_end (s : string) : string :=
  match s with
  | String c s' =>
      match trim_end s' with
      | EmptyString => if is_space c then EmptyString else String c EmptyString
      | rest => String c rest
      end
  | EmptyString => EmptyString
  end.

Definition trim (s : string) : string := trim_end (trim_start s).

(** [s.replace(/^#/, ...)] with the empty string: drops one leading [#]. *)
Definition strip_hash (s : string) : string :=
  match s with
  | String c s' => if bool_decide (c = "#"%char) then s' else s
  | EmptyString => EmptyString
  end.

(** ** The program: resolve, validate, create labels, synchronise, import *)

(** The command-line options the program declares ([opts]). *)
Module Options.
Record t : Type := mk { dryRun : bool; keepClosed : bool; keepClosedLists : bool }.
End Options.

(** The operator's answers to the two confirmation prompts. *)
Module Answers.
Record t : Type := mk { continueWithSkipped : bool; createExisting : bool }.
End Answers.

(** What the program logs about the plan ([p.log.warn] / [p.log.error]). *)
Inductive Message : Type :=
| WarnSkippedLabels (l : list Label)
| ErrMissingLabels (l : list Label)
| ErrInvalidLists (l : list string)
| ErrMissingMilestones (l : list Ref)
| ErrMissingStatusFields (l : list Ref)
| WarnStatusFieldsToCreate (l : list (string * string))
| ErrStatusWithoutProject
| ErrInvalidMembers (l : list Member).

(** How a run ends: [process.exit(code)], an uncaught exception, or the end
    of the program. *)
Inductive Outcome : Type :=
| Exited (code : Z)
| Thrown
| Completed.

Module Result.
Record t : Type := mk { trace : Trace; log : list Message; outcome : Outcome }.
End Result.

(** [getProjectInfo]: [null] without a project number ([0] is falsy too);
    the outer [None] is an exception. *)
Definition getProjectInfo (map : MapFormat.t) (tgt : Target.t) : option (option ProjectInfo.t) :=
  match MapFormat.project map with
  | None => Some None
  | Some number =>
      if bool_decide (number = 0) then Some None
      else match Target.fetchProject tgt number with
           | Some info => Some (Some info)
           | None => None
           end
  end.

(** [trello.cards] after the two filters on archived cards and lists. *)
Definition keptCards (opts : Options.t) (trello : Board.t) : list Card.t :=
  let cards :=
    if Options.keepClosed opts then Board.cards trello
    else List.filter (fun card => negb (Card.closed card)) (Board.cards trello) in
  let closedLists :=
    map TrelloList.id (List.filter (fun l => TrelloList.closed l) (Board.lists trello)) in
  if Options.keepClosedLists opts then cards
  else List.filter (fun card => negb (bool_decide (Card.idList card ∈ closedLists))) cards.

(** Everything the program has computed when it reaches the validity test. *)
Module Plan.
Record t : Type :=
  mk { cards : list Card.t;
       users : list Member;
       projectInfo : option ProjectInfo.t;
       resolution : Resolution.t;
       skippedLists : list TrelloList.t }.

Definition labels (p : t) : list Label := Resolution.labels (resolution p).

Definition mappedLabels (p : t) : list Label :=
  List.filter (fun l => match l with
                   | toCreate _ _ _ | mapped _ _ | listMapped _ _ => true
                   | _ => false
                   end) (labels p).

Definition missingLabels (p : t) : list Label :=
  List.filter (fun l => match l with
                   | missing _ _ | missingList _ _ => true
                   | _ => false
                   end) (labels p).

Definition skippedLabels (p : t) : list Label :=
  List.filter (fun l => match l with skipped _ => true | _ => false end) (labels p).

Definition labelsToCreate (p : t) : list Label :=
  List.filter (fun l => match l with toCreate _ _ _ => true | _ => false end) (labels p).

Definition validMembers (p : t) : list Member := List.filter member_has_github (users p).

Definition invalidMembers (p : t) : list Member :=
  List.filter (fun mem => negb (member_has_github mem)) (users p).
End Plan.

(** The resolution phase; [None] when a user lookup or the project query
    throws. *)
Definition makePlan (opts : Options.t) (trello : Board.t) (map : MapFormat.t)
    (tgt : Target.t) : option Plan.t :=
  let cards := keptCards opts trello in
  match resolveUsers (Target.lookupUser tgt) (MapFormat.users map) [] with
  | None => None
  | Some users =>
      match getProjectInfo map tgt with
      | None => None
      | Some projectInfo =>
          let labels :=
            resolveLabels (MapFormat.labels map) (Target.githubLabels tgt) (Board.labels trello) in
          let st :=
            resolveListRules (Target.githubLabels tgt) (Target.githubMilestones tgt)
              projectInfo (Board.lists trello) (MapFormat.lists map)
              (Resolution.mk labels [] ∅ [] false ∅ [] []) in
          let '(skippedLists, invalidLists) :=
            resolveSkips (Board.lists trello) (MapFormat.skip_lists map)
              (Resolution.invalidLists st) in
          let st :=
            Resolution.mk (Resolution.labels st) invalidLists (Resolution.validMilestones st)
              (Resolution.missingMilestones st) (Resolution.usedStatusWithoutProject st)
              (Resolution.validStatusFields st) (Resolution.missingStatusFields st)
              (Resolution.statusFieldsToCreate st) in
          let cards :=
            List.filter (fun card =>
                      negb (existsb (fun l => bool_decide (TrelloList.id l = Card.idList card))
                                    skippedLists))
                   cards in
          Some (Plan.mk cards users projectInfo st skippedLists)
      end
  end.

(** [xs.length > 0] *)
Definition nonempty_list {A} (l : list A) : bool := (0 <? length l)%nat.

(** The condition of the [if] that calls [fail()]. *)
Definition planInvalid (p : Plan.t) : bool :=
  nonempty_list (Plan.missingLabels p)
  || nonempty_list (Plan.invalidMembers p)
  || nonempty_list (Resolution.invalidLists (Plan.resolution p))
  || nonempty_list (Resolution.missingMilestones (Plan.resolution p))
  || nonempty_list (Resolution.missingStatusFields (Plan.resolution p))
  || nonempty_list (Resolution.statusFieldsToCreate (Plan.resolution p))
  || Resolution.usedStatusWithoutProject (Plan.resolution p).

(** The messages logged before the validity test, in program order. *)
Definition planLog (p : Plan.t) : list Message :=
  let r := Plan.resolution p in
  (if nonempty_list (Plan.skippedLabels p) then [WarnSkippedLabels (Plan.skippedLabels p)] else [])
  ++ (if nonempty_list (Plan.missingLabels p) then [ErrMissingLabels (Plan.missingLabels p)] else [])
  ++ (if nonempty_list (Resolution.invalidLists r)
      then [ErrInvalidLists (Resolution.invalidLists r)] else [])
  ++ (if nonempty_list (Resolution.missingMilestones r)
      then [ErrMissingMilestones (Resolution.missingMilestones r)] else [])
  ++ (if nonempty_list (Resolution.missingStatusFields r)
      then [ErrMissingStatusFields (Resolution.missingStatusFields r)] else [])
  ++ (if nonempty_list (Resolution.statusFieldsToCreate r)
      then [WarnStatusFieldsToCreate (Resolution.statusFieldsToCreate r)] else [])
  ++ (if Resolution.usedStatusWithoutProject r then [ErrStatusWithoutProject] else [])
  ++ (if nonempty_list (Plan.invalidMembers p)
      then [ErrInvalidMembers (Plan.invalidMembers p)] else []).

(** [getExistingProjectItems]: every page is read in turn; a node is kept
    when it has a content with a truthy issue number; an empty status name
    reads as [null]. *)
Definition toExistingItem (node : ProjectNode.t) : option ExistingItem.t :=
  match ProjectNode.content node with
  | Some (number, title) =>
      if negb (bool_decide (number = 0)) then
        Some (ExistingItem.mk (ProjectNode.id node) number title
                (match ProjectNode.status node with
                 | Some name => if nonempty name then Some name else None
                 | None => None
                 end))
      else None
  | None => None
  end.

Definition getExistingProjectItems (pages : list (list ProjectNode.t)) : list ExistingItem.t :=
  fold_left (fun items nodes => items ++ omap toExistingItem nodes) pages [].

(** The decision taken for one existing item in the synchronisation loop:
    [Some expectedStatus] when [setIssueStatus] is called, [None] when the
    item is skipped. *)
Definition syncItem (cards : list Card.t) (validStatusFields : gmap string StatusOption.t)
    (item : ExistingItem.t) : option StatusOption.t :=
  match find (fun card => bool_decide (Card.name card = ExistingItem.issueTitle item)) cards with
  | None => None
  | Some trelloCard =>
      match validStatusFields !! Card.idList trelloCard with
      | None => None
      | Some expectedStatus =>
          if negb (bool_decide (ExistingItem.currentStatus item
                                = Some (StatusOption.name expectedStatus)))
          then Some expectedStatus
          else None
      end
  end.

Section Execution.
Variable tgt : Target.t.
Variable toLocaleDateString : Z -> string.
Variable trello : Board.t.
Variable plan : Plan.t.

Definition request_createLabel (name : string) (color : option string) : Exec unit :=
  fun t =>
    let t' := t ++ [CreateLabel name color] in
    match Target.createLabel tgt t name color with
    | LabelCreated => (t', Some tt)
    | LabelExists => (t', Some tt)
    | LabelFailed => (t', None)
    end.

Definition request_createIssue (title body : string) (labels assignees : list string)
    (milestone : option Z) : Exec (Z * string) :=
  fun t =>
    (t ++ [CreateIssue title body labels assignees milestone],
     Target.createIssue tgt t title body labels assignees milestone).

Definition request_createComment (issue_number : Z) (body : string) : Exec unit :=
  fun t =>
    (t ++ [CreateComment issue_number body],
     if Target.createComment tgt t issue_number body then Some tt else None).

Definition addIssueToProject (info : ProjectInfo.t) (issueNodeId : string) : Exec string :=
  fun t =>
    (t ++ [AddProjectItem (ProjectInfo.projectId info) issueNodeId],
     Target.addProjectItem tgt t (ProjectInfo.projectId info) issueNodeId).

Definition setIssueStatus (info : ProjectInfo.t) (itemId statusId : string) : Exec unit :=
  fun t =>
    (t ++ [UpdateItemStatus (ProjectInfo.projectId info) itemId
             (ProjectInfo.statusFieldId info) statusId],
     if Target.updateItemStatus tgt t (ProjectInfo.projectId info) itemId
          (ProjectInfo.statusFieldId info) statusId
     then Some tt else None).

(** The loop over [labelsToCreate]. *)
Definition createLabels : Exec unit :=
  forM_ (Plan.labelsToCreate plan) (fun label =>
    match label with
    | toCreate _ name color =>
        request_createLabel name (option_map (fun c => strip_hash (trim c)) color)
    | _ => ret tt
    end).

(** The check of existing project items. *)
Definition syncExistingItems : Exec unit :=
  let validStatusFields := Resolution.validStatusFields (Plan.resolution plan) in
  match Plan.projectInfo plan with
  | Some info =>
      if (0 <? size validStatusFields)%nat then
        let existingItems := getExistingProjectItems (Target.projectItemPages tgt) in
        if nonempty_list existingItems then
          forM_ existingItems (fun item =>
            match syncItem (Plan.cards plan) validStatusFields item with
            | Some expectedStatus =>
                setIssueStatus info (ExistingItem.id item) (StatusOption.id expectedStatus)
            | None => ret tt
            end)
        else ret tt
      else ret tt
  | None => ret tt
  end.

(** The arguments of the issue-creation request for a card. *)
Definition issueMilestone (card : Card.t) : option Z :=
  MilestoneInfo.number <$> Resolution.validMilestones (Plan.resolution plan) !! Card.id card.

(** One iteration of the loop over [trello.cards]. *)
Definition importCard (card : Card.t) : Exec unit :=
  let board :=
    Board.mk (Board.name trello) (Board.lists trello) (Board.members trello)
      (Board.actions trello) (Plan.cards plan) (Board.labels trello)
      (Board.checklists trello) in
  bind
    (request_createIssue (Card.name card)
       (getDescriptionForCard board card)
       (getLabelsForCard (Plan.mappedLabels plan) card)
       (mapMemberIds board (Plan.validMembers plan) (Card.idMembers card))
       (issueMilestone card))
    (fun issue =>
       bind
         (forM_ (getCommentsForCard board (Plan.validMembers plan) toLocaleDateString card)
            (fun comment => request_createComment (fst issue) comment))
         (fun _ =>
            match Plan.projectInfo plan with
            | Some info =>
                bind (addIssueToProject info (snd issue)) (fun itemId =>
                  match Resolution.validStatusFields (Plan.resolution plan) !! Card.idList card with
                  | Some status => setIssueStatus info itemId (StatusOption.id status)
                  | None => ret tt
                  end)
            | None => ret tt
            end)).

Definition importCards : Exec unit := forM_ (Plan.cards plan) importCard.

(** Everything after the confirmation prompts. *)
Definition execute : Exec unit :=
  bind createLabels (fun _ => bind syncExistingItems (fun _ => importCards)).
End Execution.

(** [existingLabelsToCreate.length > 0] *)
Definition hasExistingLabelsToCreate (githubLabels : list GhLabel.t) (p : Plan.t) : bool :=
  nonempty_list
    (List.filter
       (fun label =>
          match label with
          | toCreate _ name _ =>
              existsb (fun ghLabel => bool_decide (GhLabel.name ghLabel = name)) githubLabels
          | _ => false
          end)
       (Plan.labelsToCreate p)).

(** The program, from the parsed board and mapping to its end. *)
Definition run (toLocaleDateString : Z -> string) (opts : Options.t) (answers : Answers.t)
    (trello : Board.t) (map : MapFormat.t) (tgt : Target.t) : Result.t :=
  match makePlan opts trello map tgt with
  | None => Result.mk [] [] Thrown
  | Some plan =>
      if planInvalid plan then Result.mk [] (planLog plan) (Exited 1)
      else if nonempty_list (Plan.skippedLabels plan)
              && negb (Answers.continueWithSkipped answers)
      then Result.mk [] (planLog plan) (Exited 0)
      else if hasExistingLabelsToCreate (Target.githubLabels tgt) plan
              && negb (Answers.createExisting answers)
      then Result.mk [] (planLog plan) (Exited 0)
      else
        match execute tgt toLocaleDateString trello plan [] with
        | (trace, Some _) => Result.mk trace (planLog plan) Completed
        | (trace, None) => Result.mk trace (planLog plan) Thrown
        end
  end.

(** ** Notions used to state the properties *)

(** [x] is the first element of [l] with property [P]: what
    [Array.prototype.find] returns. *)
Definition first_such {A} (P : A -> Prop) (l : list A) (x : A) : Prop :=
  exists pre post,
    l = pre ++ x :: post /\ P x /\ forall y, In y pre -> ~ P y.

(** [r] is the rule that [map.labels.find] returns for a source label: the
    first rule whose [trello] name is the label's name. *)
Definition first_matching_rule (rules : list LabelRule) (l : TrelloLabel.t)
    (r : LabelRule) : Prop :=
  first_such (fun r => rule_trello r = TrelloLabel.name l) rules r.

(** A target label is hit by a reference: its id equals an integer
    reference, or its name equals a string reference. *)
Definition label_hit (ref : Ref) (g : GhLabel.t) : Prop :=
  ref = RefInt (GhLabel.id g) \/ ref = RefStr (GhLabel.name g).

(** A status option is hit by a reference: its id or its name equals a
    string reference. *)
Definition status_hit (ref : Ref) (o : StatusOption.t) : Prop :=
  ref = RefStr (StatusOption.id o) \/ ref = RefStr (StatusOption.name o).

(** The label rule of a list rule does not stop the iteration: it is absent
    or falsy, or it finds a target label. *)
Definition label_rule_passes (githubLabels : list GhLabel.t) (mapping : ListRule.t) : Prop :=
  match ListRule.label mapping with
  | Some ref => truthy ref = true -> find (label_matches ref) githubLabels <> None
  | None => True
  end.

(** The milestone rule of a list rule does not stop the iteration. *)
Definition milestone_rule_passes (githubMilestones : list MilestoneInfo.t)
    (mapping : ListRule.t) : Prop :=
  match ListRule.milestone mapping with
  | Some ref => truthy ref = true -> find (milestone_matches ref) githubMilestones <> None
  | None => True
  end.

(** Two resolution states agree on what the status resolver fills in. *)
Definition same_status_fields (st st' : Resolution.t) : Prop :=
  Resolution.validStatusFields st' = Resolution.validStatusFields st
  /\ Resolution.missingStatusFields st' = Resolution.missingStatusFields st
  /\ Resolution.statusFieldsToCreate st' = Resolution.statusFieldsToCreate st
  /\ Resolution.usedStatusWithoutProject st' = Resolution.usedStatusWithoutProject st.

(** [p] occurs in [s] at the front / somewhere. *)
Fixpoint has_prefix (p s : string) : bool :=
  match p, s with
  | EmptyString, _ => true
  | String a p', String b s' => bool_decide (a = b) && has_prefix p' s'
  | String _ _, EmptyString => false
  end.

Fixpoint has_substring (p s : string) : bool :=
  has_prefix p s
  || match s with
     | String _ s' => has_substring p s'
     | EmptyString => false
     end.

(** The number of positions of [s] at which [p] occurs. *)
Fixpoint count_occurrences (p s : string) : nat :=
  ((if has_prefix p s then 1 else 0)
   + match s with
     | String _ s' => count_occurrences p s'
     | EmptyString => 0
     end)%nat.

(** The update calls the synchronisation loop issues for one item. *)
Definition syncItemCalls (info : ProjectInfo.t) (cards : list Card.t)
    (validStatusFields : gmap string StatusOption.t) (item : ExistingItem.t) : list Call :=
  match syncItem cards validStatusFields item with
  | Some expectedStatus =>
      [UpdateItemStatus (ProjectInfo.projectId info) (ExistingItem.id item)
         (ProjectInfo.statusFieldId info) (StatusOption.id expectedStatus)]
  | None => []
  end.

(** The target after a completed synchronisation pass: a node the pass
    updated now carries the name of the option it was set to, every other
    node is as it was. *)
Definition node_after_sync (cards : list Card.t)
    (validStatusFields : gmap string StatusOption.t) (node : ProjectNode.t) : ProjectNode.t :=
  match toExistingItem node with
  | Some item =>
      match syncItem cards validStatusFields item with
      | Some expectedStatus =>
          ProjectNode.mk (ProjectNode.id node) (ProjectNode.content node)
            (Some (StatusOption.name expectedStatus))
      | None => node
      end
  | None => node
  end.

Definition pages_after_sync (cards : list Card.t)
    (validStatusFields : gmap string StatusOption.t)
    (pages : list (list ProjectNode.t)) : list (list ProjectNode.t) :=
  map (map (node_after_sync cards validStatusFields)) pages.

(** Ascending order of comment dates. *)
Definition date_le (a b : Comment.t) : Prop := Comment.date a <= Comment.date b.

(** [is_comment_of card a]: [a.type === "commentCard" && a.data.idCard === card.id] *)
Definition is_comment_of (card : Card.t) (a : Action) : bool :=
  match a with
  | CommentCard c => bool_decide (Comment.idCard c = Card.id card)
  | OtherAction => false
  end.

(** A separator stands right before [section] in [body]. *)
Definition separator_before (section body : string) : Prop :=
  exists pre post, body = pre +:+ separator +:+ section +:+ post.

(** The body of a card with an empty description, a linked checklist and an
    attachment, as it would be with a separator before the checklist section
    and one before the provenance section. *)
Definition two_separators (board : Board.t) (card : Card.t) : Prop :=
  Card.desc card = EmptyString ->
  linkedChecklists board card <> [] ->
  Card.attachments card <> [] ->
  exists section,
    getChecklistContentForCard board card = Some section
    /\ separator_before section (getDescriptionForCard board card)
    /\ separator_before (provenance card) (getDescriptionForCard board card).

(** The status resolver as it would be if every list rule with a status rule
    were evaluated: a hit is recorded in [validStatusFields]; a miss is
    recorded in [statusFieldsToCreate] when [create] is set and the reference
    is a string, and in [missingStatusFields] otherwise. *)
Definition status_rule_always_recorded (githubLabels : list GhLabel.t)
    (githubMilestones : list MilestoneInfo.t) (info : ProjectInfo.t)
    (trelloLists : list TrelloList.t) (st : Resolution.t) (mapping : ListRule.t) : Prop :=
  forall ref, ListRule.status mapping = Some ref ->
    let st' := resolveListRule githubLabels githubMilestones (Some info) trelloLists st mapping in
    match find (status_matches ref) (ProjectInfo.statusFieldOptions info) with
    | Some o => exists k, Resolution.validStatusFields st' !! k = Some o
    | None =>
        if ListRule.create mapping && isString ref
        then exists k, In (k, ref_name ref) (Resolution.statusFieldsToCreate st')
        else In ref (Resolution.missingStatusFields st')
    end.

(** ** A small board, mappings and targets, used in the examples below *)

Module Ex.
Definition todo : TrelloList.t := TrelloList.mk "L1" "Todo" false.
Definition done_ : TrelloList.t := TrelloList.mk "L2" "Done" false.

Definition bug : TrelloLabel.t := TrelloLabel.mk "B1" "bug" "red" 1.

Definition alice : TrelloMember.t := TrelloMember.mk "M1" "Alice A" "alice".

Definition steps : Checklist.t :=
  Checklist.mk "K1" "Steps" "C1"
    [CheckItem.mk "I1" "write" complete; CheckItem.mk "I2" "review" incomplete].

(** A card with an empty description, one checklist and one attachment. *)
Definition card1 : Card.t :=
  Card.mk "C1" "Fix bug" "https://trello.example/c/C1" false EmptyString
    ["K1"] "L1" ["M1"] [bug]
    [Attachment.mk "A1" "spec.pdf" "https://trello.example/a/spec.pdf"].

Definition card2 : Card.t :=
  Card.mk "C2" "Add feature" "https://trello.example/c/C2" false "Details" [] "L2" [] [] [].

(** Comments on [card1] dated 3, 1 and 2, in that order, among others. *)
Definition comment3 : Comment.t := Comment.mk "X3" "M1" "alice" "C1" "third" 3.
Definition comment1 : Comment.t := Comment.mk "X1" "M9" "bob" "C1" "first" 1.
Definition comment2 : Comment.t := Comment.mk "X2" "M1" "alice" "C1" "second" 2.
Definition comment_other : Comment.t := Comment.mk "X4" "M1" "alice" "C2" "elsewhere" 0.

Definition board : Board.t :=
  Board.mk "Board" [todo; done_] [alice]
    [CommentCard comment3; OtherAction; CommentCard comment1;
     CommentCard comment_other; CommentCard comment2]
    [card1; card2] [bug] [steps].

Definition gh_bug : GhLabel.t := GhLabel.mk 1 "bug" "d73a4a".
Definition v1 : MilestoneInfo.t := MilestoneInfo.mk 10 1 "v1".

Definition opt_todo : StatusOption.t := StatusOption.mk "o1" "Todo" "GRAY".
Definition opt_done : StatusOption.t := StatusOption.mk "o2" "Done" "GREEN".
Definition project : ProjectInfo.t := ProjectInfo.mk "PVT_1" "Roadmap" "F1" [opt_todo; opt_done].

(** Two existing project items: "Fix bug" shows Done, "Add feature" shows
    Done; a draft item has no content. *)
Definition nodes : list ProjectNode.t :=
  [ProjectNode.mk "IT1" (Some (7, "Fix bug")) (Some "Done");
   ProjectNode.mk "IT2" (Some (8, "Add feature")) (Some "Done");
   ProjectNode.mk "IT3" None None].

(** A target that accepts every call: issues are numbered by the length of
    the trace so far. *)
Definition target (pages : list (list ProjectNode.t)) : Target.t :=
  Target.mk [gh_bug] [v1]
    (fun name => if bool_decide (name = "alice-gh") then UserFound "alice-gh" else UserNotFound)
    (fun _ => Some project)
    pages
    (fun _ _ _ => LabelCreated)
    (fun t _ _ _ _ _ => Some (Z.of_nat (length t) + 100, "NODE"))
    (fun _ _ _ => true)
    (fun _ _ _ => Some "ITEM")
    (fun _ _ _ _ _ => true).

Definition date_string (d : Z) : string := "2024-01-0" +:+ String (ascii_of_nat (48 + Z.to_nat d)) EmptyString.

Definition no_options : Options.t := Options.mk false false false.
Definition yes : Answers.t := Answers.mk true true.

(** [{ list = "Todo", milestone = "v1", status = "Todo" }], with and
    without a project number. *)
Definition rule_todo : ListRule.t :=
  ListRule.mk "Todo" (Some (RefStr "Todo")) false None (Some (RefStr "v1")).

Definition mapping (project : option Z) (lists : list ListRule.t) : MapFormat.t :=
  MapFormat.mk (OwnerStr "octo") "repo" project
    [LookupRule "bug" (RefStr "bug")]
    [UserRule.mk "alice" "alice-gh"]
    lists [].

(** A list rule whose label, milestone and status references all miss. *)
Definition rule_all_missing : ListRule.t :=
  ListRule.mk "Todo" (Some (RefStr "nostatus")) false
    (Some (RefStr "nolabel")) (Some (RefStr "nomilestone")).

Definition rule_done : ListRule.t :=
  ListRule.mk "Done" (Some (RefStr "Done")) false None None.

(** The plan of the example board with both lists mapped to a status. *)
Definition sync_plan : Plan.t :=
  Plan.mk [card1; card2] [verified "alice" "alice-gh"] (Some project)
    (resolveListRules [gh_bug] [v1] (Some project) [todo; done_]
       [rule_todo; rule_done] Resolution.init)
    [].

(** [{ list = "Done", status = "Review", create = true }] *)
Definition rule_review : ListRule.t :=
  ListRule.mk "Done" (Some (RefStr "Review")) true None None.

(** A status rule on a list the board does not have. *)
Definition rule_ghost : ListRule.t :=
  ListRule.mk "Ghost" (Some (RefStr "Review")) false None None.
End Ex.

(** ** Further notions used to state properties of the program *)

(** A list reference (of a list rule or of [skip.lists]) names no list of
    the board, by id or by name. *)
Definition unresolved (trelloLists : list TrelloList.t) (key : string) : bool :=
  match find (list_matches key) trelloLists with
  | Some _ => false
  | None => true
  end.

(** The entry of [users] for a rule whose lookup does not throw. *)
Definition classifyUser (lookup : string -> UserLookup) (rule : UserRule.t) : Member :=
  match lookup (UserRule.github rule) with
  | UserFound login => verified (UserRule.trello rule) login
  | _ => unverified (UserRule.trello rule) (UserRule.github rule)
  end.

(** A target milestone is hit by a reference: its id or its number equals an
    integer reference, or its title equals a string reference. *)
Definition milestone_hit (ref : Ref) (m : MilestoneInfo.t) : Prop :=
  ref = RefInt (MilestoneInfo.id m)
  \/ ref = RefInt (MilestoneInfo.number m)
  \/ ref = RefStr (MilestoneInfo.title m).

(** Calls that touch the project board. *)
Definition project_call (c : Call) : bool :=
  match c with
  | AddProjectItem _ _ | UpdateItemStatus _ _ _ _ => true
  | _ => false
  end.

(** The titles of the issues a trace creates, oldest first. *)
Definition issue_titles (t : Trace) : list string :=
  omap (fun c => match c with CreateIssue title _ _ _ _ => Some title | _ => None end) t.

(** The label-creation calls of a plan. *)
Definition labelCalls (p : Plan.t) : list Call :=
  omap (fun label =>
          match label with
          | toCreate _ name color =>
              Some (CreateLabel name (option_map (fun c => strip_hash (trim c)) color))
          | _ => None
          end)
       (Plan.labelsToCreate p).

(** The resolved milestones are keyed by ids of board lists and are
    milestones of the target. *)
Definition milestones_sound (trelloLists : list TrelloList.t)
    (githubMilestones : list MilestoneInfo.t) (st : Resolution.t) : Prop :=
  forall k m, Resolution.validMilestones st !! k = Some m ->
    (exists l, In l trelloLists /\ TrelloList.id l = k) /\ In m githubMilestones.

(** The resolved statuses are keyed by ids of board lists and are options
    of the project's status field. *)
Definition statuses_sound (trelloLists : list TrelloList.t)
    (projectInfo : option ProjectInfo.t) (st : Resolution.t) : Prop :=
  forall k o, Resolution.validStatusFields st !! k = Some o ->
    (exists l, In l trelloLists /\ TrelloList.id l = k)
    /\ exists info, projectInfo = Some info /\ In o (ProjectInfo.statusFieldOptions info).

(** Both of the above. *)
Definition resolution_sound (trelloLists : list TrelloList.t)
    (githubMilestones : list MilestoneInfo.t) (projectInfo : option ProjectInfo.t)
    (st : Resolution.t) : Prop :=
  milestones_sound trelloLists githubMilestones st
  /\ statuses_sound trelloLists projectInfo st.

(** A computation only adds calls to the trace, all of them with property
    [P]. *)
Definition emits {A} (P : Call -> Prop) (m : Exec A) : Prop :=
  forall t, exists calls, fst (m t) = t ++ calls /\ List.Forall P calls.

(** A computation only adds calls to the trace; the issues it creates have
    the titles [titles], in order, when it returns, and a prefix of them when
    it throws. *)
Definition creates {A} (titles : list string) (m : Exec A) : Prop :=
  forall t, exists calls,
    fst (m t) = t ++ calls
    /\ (is_Some (snd (m t)) -> issue_titles calls = titles)
    /\ issue_titles calls `prefix_of` titles.

(** [/^#?([0-9a-f]{6}|[0-9a-f]{3})$/i] of [src/lib/schemas.ts]: an optional
    [#], then exactly six or exactly three hexadecimal digits. *)
Definition is_hex_digit (c : ascii) : bool :=
  let n := nat_of_ascii c in
  ((48 <=? n) && (n <=? 57) || (97 <=? n) && (n <=? 102) || (65 <=? n) && (n <=? 70))%nat.

Definition hex_digits (s : string) : bool :=
  ((String.length s =? 6) || (String.length s =? 3))%nat
  && forallb is_hex_digit (list_ascii_of_string s).

Definition valid_color (s : string) : bool :=
  match s with
  | String c s' => if bool_decide (c = "#"%char) then hex_digits s' else hex_digits s
  | EmptyString => false
  end.

(** The owner as the three places of the program read it: [repoData.owner],
    the query of [getProjectInfo], and the query of
    [getExistingProjectItems]. *)
Definition repoData_owner (owner : Owner) : string :=
  match owner with OwnerStr s => s | OwnerObj _ login => login end.

Definition projectInfo_queryTarget (owner : Owner) : OwnerType :=
  match owner with
  | OwnerObj owner_organization _ => owner_organization
  | _ => owner_user
  end.

Definition projectInfo_queryLogin (owner : Owner) : string :=
  match owner with OwnerObj _ login => login | OwnerStr s => s end.

Definition existingItems_ownerType (owner : Owner) : OwnerType :=
  match owner with OwnerStr _ => owner_user | OwnerObj type _ => type end.

Definition existingItems_login (owner : Owner) : string :=
  match owner with OwnerStr s => s | OwnerObj _ login => login end.

(** The calls a card gives rise to once its issue exists with number
    [number] and node id [node], its item having id [item]. *)
Definition cardCalls (tz : Z -> string) (trello : Board.t) (plan : Plan.t) (card : Card.t)
    (number : Z) (node item : string) : list Call :=
  let board :=
    Board.mk (Board.name trello) (Board.lists trello) (Board.members trello)
      (Board.actions trello) (Plan.cards plan) (Board.labels trello)
      (Board.checklists trello) in
  [CreateIssue (Card.name card)
     (getDescriptionForCard board card)
     (getLabelsForCard (Plan.mappedLabels plan) card)
     (mapMemberIds board (Plan.validMembers plan) (Card.idMembers card))
     (issueMilestone plan card)]
  ++ map (CreateComment number) (getCommentsForCard board (Plan.validMembers plan) tz card)
  ++ match Plan.projectInfo plan with
     | Some info =>
         AddProjectItem (ProjectInfo.projectId info) node
         :: match Resolution.validStatusFields (Plan.resolution plan) !! Card.idList card with
            | Some status =>
                [UpdateItemStatus (ProjectInfo.projectId info) item
                   (ProjectInfo.statusFieldId info) (StatusOption.id status)]
            | None => []
            end
     | None => []
     end.

(** A resolved label refers to a label of the board or a list of the board,
    and, when it is mapped, to a label of the target. *)
Definition label_sound (githubLabels : list GhLabel.t) (trelloLists : list TrelloList.t)
    (trelloLabels : list TrelloLabel.t) (l : Label) : Prop :=
  match l with
  | skipped t | toCreate t _ _ | missing t _ => In t trelloLabels
  | mapped t g => In t trelloLabels /\ In g githubLabels
  | listMapped g tl => In g githubLabels /\ In tl trelloLists
  | missingList _ tl => In tl trelloLists
  end.



(** ** More example inputs *)

Module Ex2.
(** The example mapping with [skip.lists = ["Done", "Ghost"]]. *)
Definition mapping_skip : MapFormat.t :=
  MapFormat.mk (OwnerStr "octo") "repo" None
    [LookupRule "bug" (RefStr "bug")]
    [UserRule.mk "alice" "alice-gh"]
    [] ["Done"; "Ghost"].

(** A mapping with two user rules; the target knows [alice-gh] only. *)
Definition mapping_users : MapFormat.t :=
  MapFormat.mk (OwnerStr "octo") "repo" None
    [LookupRule "bug" (RefStr "bug")]
    [UserRule.mk "alice" "alice-gh"; UserRule.mk "bob" "bob-gh"]
    [] [].

(** The example target, with a user lookup that fails for [bob-gh] with
    something else than a 404. *)
Definition target_lookup_fails : Target.t :=
  Target.mk [Ex.gh_bug] [Ex.v1]
    (fun name => if bool_decide (name = "bob-gh") then UserLookupFailed else UserFound name)
    (fun _ => Some Ex.project)
    []
    (fun _ _ _ => LabelCreated)
    (fun t _ _ _ _ _ => Some (Z.of_nat (length t) + 100, "NODE"))
    (fun _ _ _ => true)
    (fun _ _ _ => Some "ITEM")
    (fun _ _ _ _ _ => true).

(** The example target, refusing to create the issue "Add feature". *)
Definition target_refuses_second : Target.t :=
  Target.mk [Ex.gh_bug] [Ex.v1]
    (fun name => UserFound name)
    (fun _ => Some Ex.project)
    []
    (fun _ _ _ => LabelCreated)
    (fun t title _ _ _ _ =>
       if bool_decide (title = "Add feature") then None
       else Some (Z.of_nat (length t) + 100, "NODE"))
    (fun _ _ _ => true)
    (fun _ _ _ => Some "ITEM")
    (fun _ _ _ _ _ => true).

(** The example target, on which every label to create exists already. *)
Definition target_labels_exist : Target.t :=
  Target.mk [Ex.gh_bug] [Ex.v1]
    (fun name => UserFound name)
    (fun _ => Some Ex.project)
    []
    (fun _ _ _ => LabelExists)
    (fun t _ _ _ _ _ => Some (Z.of_nat (length t) + 100, "NODE"))
    (fun _ _ _ => true)
    (fun _ _ _ => Some "ITEM")
    (fun _ _ _ _ _ => true).

(** A plan with two labels to create, one with a colour. *)
Definition label_plan : Plan.t :=
  Plan.mk [] [] None
    (Resolution.mk
       [toCreate Ex.bug "defect" (Some "#F00"); skipped Ex.bug;
        toCreate Ex.bug "chore" None]
       [] ∅ [] false ∅ [] [])
    [].
End Ex2.

(** * Properties *)

(** ** [find] and first elements *)

Section Find.
Context {A : Type} (f : A -> bool) (P : A -> Prop).
Hypothesis f_spec : forall x, f x = true <-> P x.

Lemma find_first_such (l : list A) (x : A) :
  first_such P l x -> find f l = Some x.
Proof.
  intros (pre & post & -> & Hx & Hpre).
  induction pre as [|y pre IH]; simpl.
  - apply f_spec in Hx. now rewrite Hx.
  - destruct (f y) eqn:Hy.
    + exfalso. apply (Hpre y); [now left | now apply f_spec].
    + apply IH. intros z Hz. apply Hpre. now right.
Qed.

Lemma find_Some_first_such (l : list A) (x : A) :
  find f l = Some x -> first_such P l x.
Proof.
  induction l as [|y l IH]; simpl; [discriminate|].
  destruct (f y) eqn:Hy.
  - intros [= ->]. exists [], l. repeat split; [now apply f_spec | intros ? []].
  - intros Hfind. destruct (IH Hfind) as (pre & post & -> & Hx & Hpre).
    exists (y :: pre), post. repeat split; [exact Hx|].
    intros z [<-|Hz]; [|now apply Hpre].
    intros HP. apply f_spec in HP. congruence.
Qed.

Lemma find_None_none (l : list A) :
  (forall x, In x l -> ~ P x) -> find f l = None.
Proof.
  intros Hl. destruct (find f l) as [x|] eqn:Hfind; [|reflexivity].
  apply find_some in Hfind as [Hin Hfx].
  exfalso. apply (Hl x Hin). now apply f_spec.
Qed.

Lemma find_Some_exists (l : list A) :
  (exists x, In x l /\ P x) -> exists x, find f l = Some x.
Proof.
  intros (x & Hin & HP). destruct (find f l) as [y|] eqn:Hfind; [now exists y|].
  exfalso. apply f_spec in HP. pose proof (find_none _ _ Hfind x Hin). congruence.
Qed.
End Find.

Lemma label_matches_hit (ref : Ref) (g : GhLabel.t) :
  label_matches ref g = true <-> label_hit ref g.
Proof.
  unfold label_matches, label_hit. destruct ref as [s|n]; simpl.
  - rewrite bool_decide_eq_true. split.
    + intros <-. now right.
    + intros [[=]|[= ->]]. reflexivity.
  - rewrite orb_false_r, bool_decide_eq_true. split.
    + intros <-. now left.
    + intros [[= ->]|[=]]. reflexivity.
Qed.

Lemma status_matches_hit (ref : Ref) (o : StatusOption.t) :
  status_matches ref o = true <-> status_hit ref o.
Proof.
  unfold status_matches, status_hit. destruct ref as [s|n]; simpl.
  - rewrite orb_true_iff, !bool_decide_eq_true. split.
    + intros [<-|<-]; [now left | now right].
    + intros [[= ->]|[= ->]]; [now left | now right].
  - split; [discriminate | intros [[=]|[=]]].
Qed.

Lemma rule_name_matches (l : TrelloLabel.t) (r : LabelRule) :
  bool_decide (rule_trello r = TrelloLabel.name l) = true
  <-> rule_trello r = TrelloLabel.name l.
Proof. apply bool_decide_eq_true. Qed.

(** ** The label resolver *)

Lemma resolveLabels_from (rules : list LabelRule) (gh : list GhLabel.t)
    (ls : list TrelloLabel.t) (acc : list Label) :
  fold_left (fun labels trelloLabel => labels ++ [resolveLabel rules gh trelloLabel]) ls acc
  = acc ++ map (resolveLabel rules gh) ls.
Proof.
  revert acc. induction ls as [|l ls IH]; intros acc; simpl.
  - now rewrite app_nil_r.
  - rewrite IH, <- app_assoc. reflexivity.
Qed.

Lemma resolveLabels_map (rules : list LabelRule) (gh : list GhLabel.t)
    (ls : list TrelloLabel.t) :
  resolveLabels rules gh ls = map (resolveLabel rules gh) ls.
Proof. unfold resolveLabels. now rewrite resolveLabels_from. Qed.

(** C8. The label resolver gives each source label one entry, in order, and
    classifies it by the first mapping rule whose source name equals the
    label's name: [skipped] when no rule has that name; [toCreate], with the
    rule's target name and optional colour, when that rule is a create rule;
    [mapped] to the first target label whose id equals an integer reference
    or whose name equals a string reference, when the rule is a lookup rule
    and such a target label exists; [missing] when the rule is a lookup rule
    and no target label is hit. *)
Theorem label_resolver_classification
    (rules : list LabelRule) (gh : list GhLabel.t) (l : TrelloLabel.t) :
  ((forall r, In r rules -> rule_trello r <> TrelloLabel.name l) ->
     resolveLabel rules gh l = skipped l)
  /\ (forall t name color,
        first_matching_rule rules l (CreateRule t name color) ->
        resolveLabel rules gh l = toCreate l name color)
  /\ (forall t ref,
        first_matching_rule rules l (LookupRule t ref) ->
        (exists g, In g gh /\ label_hit ref g) ->
        exists g, first_such (label_hit ref) gh g /\ resolveLabel rules gh l = mapped l g)
  /\ (forall t ref,
        first_matching_rule rules l (LookupRule t ref) ->
        (forall g, In g gh -> ~ label_hit ref g) ->
        resolveLabel rules gh l = missing l ref)
  /\ (forall ls, resolveLabels rules gh ls = map (resolveLabel rules gh) ls).
Proof.
  unfold resolveLabel, first_matching_rule. repeat split.
  - intros Hnone. now rewrite (find_None_none _ _ (rule_name_matches l) rules Hnone).
  - intros t name color Hfirst.
    now rewrite (find_first_such _ _ (rule_name_matches l) rules _ Hfirst).
  - intros t ref Hfirst Hhit.
    rewrite (find_first_such _ _ (rule_name_matches l) rules _ Hfirst).
    destruct (find_Some_exists _ _ (label_matches_hit ref) gh Hhit) as [g Hg].
    exists g. rewrite Hg. split; [|reflexivity].
    now apply (find_Some_first_such _ _ (label_matches_hit ref)).
  - intros t ref Hfirst Hmiss.
    rewrite (find_first_such _ _ (rule_name_matches l) rules _ Hfirst).
    now rewrite (find_None_none _ _ (label_matches_hit ref) gh Hmiss).
  - intros ls. apply resolveLabels_map.
Qed.

Lemma label_resolver_classification_witness :
  resolveLabel [LookupRule "other" (RefStr "x")] [Ex.gh_bug] Ex.bug = skipped Ex.bug
  /\ resolveLabel [CreateRule "bug" "defect" (Some "#f00")] [Ex.gh_bug] Ex.bug
     = toCreate Ex.bug "defect" (Some "#f00")
  /\ (exists g, first_such (label_hit (RefStr "bug")) [Ex.gh_bug] g
                /\ resolveLabel [LookupRule "bug" (RefStr "bug")] [Ex.gh_bug] Ex.bug
                   = mapped Ex.bug g)
  /\ resolveLabel [LookupRule "bug" (RefInt 99)] [Ex.gh_bug] Ex.bug
     = missing Ex.bug (RefInt 99).
Proof.
  split; [|split; [|split]].
  - apply (label_resolver_classification [LookupRule "other" (RefStr "x")] [Ex.gh_bug] Ex.bug).
    intros r [<-|[]]. simpl. discriminate.
  - apply (proj1 (proj2 (label_resolver_classification
                           [CreateRule "bug" "defect" (Some "#f00")] [Ex.gh_bug] Ex.bug))
             "bug").
    exists [], []. repeat split. intros ? [].
  - apply (proj1 (proj2 (proj2 (label_resolver_classification
                                  [LookupRule "bug" (RefStr "bug")] [Ex.gh_bug] Ex.bug)))
             "bug").
    + exists [], []. repeat split. intros ? [].
    + exists Ex.gh_bug. split; [now left | now right].
  - apply (proj1 (proj2 (proj2 (proj2 (label_resolver_classification
                                         [LookupRule "bug" (RefInt 99)] [Ex.gh_bug] Ex.bug))))
             "bug").
    + exists [], []. repeat split. intros ? [].
    + intros g [<-|[]] [H|H]; discriminate H.
Defined.

(** ** Comments: filtering, order, rendering *)

Lemma insert_by_date_Permutation (a : Comment.t) (l : list Comment.t) :
  Permutation (insert_by_date a l) (a :: l).
Proof.
  induction l as [|b l IH]; simpl; [reflexivity|].
  destruct (Z.leb (Comment.date a) (Comment.date b)); [reflexivity|].
  rewrite IH. apply perm_swap.
Qed.

Lemma sort_by_date_Permutation (l : list Comment.t) :
  Permutation (sort_by_date l) l.
Proof.
  induction l as [|a l IH]; simpl; [reflexivity|].
  rewrite insert_by_date_Permutation. now apply perm_skip.
Qed.

Lemma insert_by_date_Forall (P : Comment.t -> Prop) (a : Comment.t) (l : list Comment.t) :
  P a -> List.Forall P l -> List.Forall P (insert_by_date a l).
Proof.
  intros Ha Hl. induction Hl as [|b l Hb Hl IH]; simpl.
  - now repeat constructor.
  - destruct (Z.leb (Comment.date a) (Comment.date b)); now repeat constructor.
Qed.

Lemma insert_by_date_sorted (a : Comment.t) (l : list Comment.t) :
  StronglySorted date_le l -> StronglySorted date_le (insert_by_date a l).
Proof.
  induction 1 as [|b l Hl IH Hb]; simpl.
  - repeat constructor.
  - destruct (Z.leb (Comment.date a) (Comment.date b)) eqn:Hab.
    + apply Z.leb_le in Hab. constructor; [now constructor|].
      constructor; [exact Hab|].
      eapply List.Forall_impl; [|exact Hb].
      unfold date_le. intros c Hc. lia.
    + apply Z.leb_gt in Hab. constructor; [exact IH|].
      apply insert_by_date_Forall; [unfold date_le; lia | exact Hb].
Qed.

Lemma sort_by_date_sorted (l : list Comment.t) :
  StronglySorted date_le (sort_by_date l).
Proof.
  induction l as [|a l IH]; simpl; [constructor|].
  now apply insert_by_date_sorted.
Qed.

(** The sort is stable: comments of one date keep their order. *)
Lemma insert_by_date_stable (d : Z) (a : Comment.t) (l : list Comment.t) :
  StronglySorted date_le l ->
  List.filter (fun c => bool_decide (Comment.date c = d)) (insert_by_date a l)
  = List.filter (fun c => bool_decide (Comment.date c = d)) (a :: l).
Proof.
  induction 1 as [|b l Hl IH Hb]; [reflexivity|].
  cbn [insert_by_date].
  destruct (Z.leb (Comment.date a) (Comment.date b)) eqn:Hab; [reflexivity|].
  apply Z.leb_gt in Hab.
  cbn [List.filter] in *. rewrite IH.
  destruct (bool_decide (Comment.date a = d)) eqn:Ha;
    destruct (bool_decide (Comment.date b = d)) eqn:Hb'; try reflexivity.
  apply bool_decide_eq_true in Ha, Hb'. lia.
Qed.

Lemma sort_by_date_stable (d : Z) (l : list Comment.t) :
  List.filter (fun c => bool_decide (Comment.date c = d)) (sort_by_date l)
  = List.filter (fun c => bool_decide (Comment.date c = d)) l.
Proof.
  induction l as [|a l IH]; [reflexivity|].
  cbn [sort_by_date].
  rewrite insert_by_date_stable by apply sort_by_date_sorted.
  cbn [List.filter]. now rewrite IH.
Qed.

Lemma commentActions_filter (board : Board.t) (card : Card.t) :
  map CommentCard (commentActions board card)
  = List.filter (is_comment_of card) (Board.actions board).
Proof.
  unfold commentActions. induction (Board.actions board) as [|a l IH]; [reflexivity|].
  destruct a as [c|]; cbn [omap list_omap List.filter is_comment_of].
  - destruct (bool_decide (Comment.idCard c = Card.id card)); cbn; now rewrite <- IH.
  - exact IH.
Qed.

Lemma renderComment_shape (board : Board.t) (vm : list Member) (tz : Z -> string)
    (c : Comment.t) :
  exists who,
    renderComment board vm tz c
    = ("## " +:+ who +:+ " • " +:+ tz (Comment.date c)) +:+ nl +:+ Comment.text c
    /\ ((exists login, mapMemberId board vm (Comment.memberCreator_id c) = Some login
                       /\ login <> EmptyString /\ who = "@" +:+ login)
        \/ ((mapMemberId board vm (Comment.memberCreator_id c) = None
             \/ mapMemberId board vm (Comment.memberCreator_id c) = Some EmptyString)
            /\ who = "`@" +:+ Comment.memberCreator_username c +:+ "`")).
Proof.
  unfold renderComment.
  destruct (mapMemberId board vm (Comment.memberCreator_id c)) as [login|] eqn:Hm; simpl.
  - unfold nonempty. destruct (bool_decide (login = EmptyString)) eqn:Hl; simpl.
    + apply bool_decide_eq_true in Hl. subst login.
      eexists. split; [reflexivity|]. right. split; [now right | reflexivity].
    + apply bool_decide_eq_false in Hl.
      eexists. split; [reflexivity|]. left. exists login. now repeat split.
  - eexists. split; [reflexivity|]. right. split; [now left | reflexivity].
Qed.

(** C9. The comments rendered for a card are exactly the comment actions of
    the board whose card reference is the card's id, in ascending order of
    date (comments of equal date keep their order), each rendered as a header
    naming the member and the date, a line feed, and the original text. *)
Theorem comments_filtered_sorted_rendered
    (board : Board.t) (vm : list Member) (tz : Z -> string) (card : Card.t) :
  exists sorted : list Comment.t,
    getCommentsForCard board vm tz card = map (renderComment board vm tz) sorted
    /\ Permutation (map CommentCard sorted)
         (List.filter (is_comment_of card) (Board.actions board))
    /\ StronglySorted date_le sorted
    /\ (forall d,
          map CommentCard (List.filter (fun c => bool_decide (Comment.date c = d)) sorted)
          = List.filter (is_comment_of card)
              (List.filter (fun a => match a with
                                     | CommentCard c => bool_decide (Comment.date c = d)
                                     | OtherAction => false
                                     end) (Board.actions board)))
    /\ (forall c, exists who,
          renderComment board vm tz c
          = ("## " +:+ who +:+ " • " +:+ tz (Comment.date c)) +:+ nl +:+ Comment.text c
          /\ ((exists login, mapMemberId board vm (Comment.memberCreator_id c) = Some login
                             /\ login <> EmptyString /\ who = "@" +:+ login)
              \/ ((mapMemberId board vm (Comment.memberCreator_id c) = None
                   \/ mapMemberId board vm (Comment.memberCreator_id c) = Some EmptyString)
                  /\ who = "`@" +:+ Comment.memberCreator_username c +:+ "`"))).
Proof.
  exists (sort_by_date (commentActions board card)).
  split; [reflexivity|]. split; [|split; [|split]].
  - rewrite <- commentActions_filter. apply Permutation_map, sort_by_date_Permutation.
  - apply sort_by_date_sorted.
  - intros d. rewrite sort_by_date_stable.
    unfold commentActions. induction (Board.actions board) as [|a l IH]; [reflexivity|].
    destruct a as [c|]; cbn [omap list_omap List.filter is_comment_of].
    + destruct (bool_decide (Comment.idCard c = Card.id card)) eqn:Hc;
        destruct (bool_decide (Comment.date c = d)) eqn:Hd;
        cbn [List.filter map is_comment_of]; rewrite ?Hc, ?Hd; cbn [map];
        now rewrite <- ?IH.
    + exact IH.
  - intros c. apply renderComment_shape.
Qed.

(** The three comments of the example card, dated 3, 1, 2 in the board, are
    rendered in the order 1, 2, 3. *)
Example comments_example :
  getCommentsForCard Ex.board [verified "alice" "alice-gh"] Ex.date_string Ex.card1
  = map (renderComment Ex.board [verified "alice" "alice-gh"] Ex.date_string)
      [Ex.comment1; Ex.comment2; Ex.comment3].
Proof. reflexivity. Qed.

(** ** The plan validator *)

Lemma nonempty_list_false {A} (l : list A) : nonempty_list l = false <-> l = [].
Proof. destruct l; cbn; split; try reflexivity; discriminate. Qed.

Lemma nonempty_list_true {A} (l : list A) : nonempty_list l = true <-> l <> [].
Proof. destruct l; cbn; split; try reflexivity; try discriminate; congruence. Qed.

Lemma planInvalid_false (p : Plan.t) :
  planInvalid p = false
  <-> Plan.missingLabels p = []
      /\ Plan.invalidMembers p = []
      /\ Resolution.invalidLists (Plan.resolution p) = []
      /\ Resolution.missingMilestones (Plan.resolution p) = []
      /\ Resolution.missingStatusFields (Plan.resolution p) = []
      /\ Resolution.statusFieldsToCreate (Plan.resolution p) = []
      /\ Resolution.usedStatusWithoutProject (Plan.resolution p) = false.
Proof.
  unfold planInvalid. rewrite !orb_false_iff, !nonempty_list_false. tauto.
Qed.

Ltac log_entry H :=
  unfold planLog; apply nonempty_list_true in H; rewrite ?H;
  rewrite !in_app_iff; simpl; tauto.

Lemma planLog_complete (p : Plan.t) :
  (Plan.missingLabels p <> [] -> In (ErrMissingLabels (Plan.missingLabels p)) (planLog p))
  /\ (Plan.invalidMembers p <> [] -> In (ErrInvalidMembers (Plan.invalidMembers p)) (planLog p))
  /\ (Resolution.invalidLists (Plan.resolution p) <> [] ->
      In (ErrInvalidLists (Resolution.invalidLists (Plan.resolution p))) (planLog p))
  /\ (Resolution.missingMilestones (Plan.resolution p) <> [] ->
      In (ErrMissingMilestones (Resolution.missingMilestones (Plan.resolution p))) (planLog p))
  /\ (Resolution.missingStatusFields (Plan.resolution p) <> [] ->
      In (ErrMissingStatusFields (Resolution.missingStatusFields (Plan.resolution p)))
         (planLog p))
  /\ (Resolution.statusFieldsToCreate (Plan.resolution p) <> [] ->
      In (WarnStatusFieldsToCreate (Resolution.statusFieldsToCreate (Plan.resolution p)))
         (planLog p))
  /\ (Resolution.usedStatusWithoutProject (Plan.resolution p) = true ->
      In ErrStatusWithoutProject (planLog p)).
Proof.
  repeat split; intros H; try log_entry H.
  unfold planLog. rewrite H, !in_app_iff. simpl. tauto.
Qed.

(** C5. The plan is valid exactly when every failure class is empty: no
    missing labels, no unverified users, no invalid lists, no missing
    milestones, no missing status fields, no status fields pending manual
    creation, and no status used without a project.  When a class is not
    empty, every non-empty class has been reported, the run exits with code 1
    and has issued no mutating call; a run that issues a mutating call has a
    valid plan. *)
Theorem plan_valid_iff_no_failures_and_invalid_plan_halts
    (tz : Z -> string) (opts : Options.t) (answers : Answers.t)
    (trello : Board.t) (map : MapFormat.t) (tgt : Target.t) :
  (forall plan, makePlan opts trello map tgt = Some plan ->
     (planInvalid plan = false
      <-> Plan.missingLabels plan = []
          /\ Plan.invalidMembers plan = []
          /\ Resolution.invalidLists (Plan.resolution plan) = []
          /\ Resolution.missingMilestones (Plan.resolution plan) = []
          /\ Resolution.missingStatusFields (Plan.resolution plan) = []
          /\ Resolution.statusFieldsToCreate (Plan.resolution plan) = []
          /\ Resolution.usedStatusWithoutProject (Plan.resolution plan) = false)
     /\ (planInvalid plan = true ->
         run tz opts answers trello map tgt = Result.mk [] (planLog plan) (Exited 1))
     /\ (Plan.missingLabels plan <> [] ->
         In (ErrMissingLabels (Plan.missingLabels plan)) (planLog plan))
     /\ (Plan.invalidMembers plan <> [] ->
         In (ErrInvalidMembers (Plan.invalidMembers plan)) (planLog plan))
     /\ (Resolution.invalidLists (Plan.resolution plan) <> [] ->
         In (ErrInvalidLists (Resolution.invalidLists (Plan.resolution plan))) (planLog plan))
     /\ (Resolution.missingMilestones (Plan.resolution plan) <> [] ->
         In (ErrMissingMilestones (Resolution.missingMilestones (Plan.resolution plan)))
            (planLog plan))
     /\ (Resolution.missingStatusFields (Plan.resolution plan) <> [] ->
         In (ErrMissingStatusFields (Resolution.missingStatusFields (Plan.resolution plan)))
            (planLog plan))
     /\ (Resolution.statusFieldsToCreate (Plan.resolution plan) <> [] ->
         In (WarnStatusFieldsToCreate (Resolution.statusFieldsToCreate (Plan.resolution plan)))
            (planLog plan))
     /\ (Resolution.usedStatusWithoutProject (Plan.resolution plan) = true ->
         In ErrStatusWithoutProject (planLog plan)))
  /\ (Result.trace (run tz opts answers trello map tgt) <> [] ->
      exists plan, makePlan opts trello map tgt = Some plan /\ planInvalid plan = false).
Proof.
  split.
  - intros plan Hplan. split; [apply planInvalid_false|]. split.
    + intros Hinv. unfold run. now rewrite Hplan, Hinv.
    + apply planLog_complete.
  - unfold run. destruct (makePlan opts trello map tgt) as [plan|]; [|now intros []].
    destruct (planInvalid plan) eqn:Hinv; [now intros []|].
    intros _. now exists plan.
Qed.

(** An invalid plan on the example board: a lookup rule for a label the
    target does not have. *)
Lemma plan_valid_iff_no_failures_and_invalid_plan_halts_witness :
  exists plan,
    makePlan Ex.no_options Ex.board (Ex.mapping (Some 3) [Ex.rule_all_missing])
      (Ex.target [Ex.nodes]) = Some plan
    /\ planInvalid plan = true
    /\ run Ex.date_string Ex.no_options Ex.yes Ex.board
         (Ex.mapping (Some 3) [Ex.rule_all_missing]) (Ex.target [Ex.nodes])
       = Result.mk [] (planLog plan) (Exited 1)
    /\ In (ErrMissingLabels (Plan.missingLabels plan)) (planLog plan).
Proof.
  eexists. split; [vm_compute; reflexivity|].
  split; [vm_compute; reflexivity|].
  split.
  - apply (proj1 (plan_valid_iff_no_failures_and_invalid_plan_halts
                    Ex.date_string Ex.no_options Ex.yes Ex.board
                    (Ex.mapping (Some 3) [Ex.rule_all_missing]) (Ex.target [Ex.nodes])));
      vm_compute; reflexivity.
  - apply (proj1 (plan_valid_iff_no_failures_and_invalid_plan_halts
                    Ex.date_string Ex.no_options Ex.yes Ex.board
                    (Ex.mapping (Some 3) [Ex.rule_all_missing]) (Ex.target [Ex.nodes])) _
             ltac:(vm_compute; reflexivity)).
    vm_compute. discriminate.
Defined.

(** ** The dry-run option *)

(** C10. The [--dry-run] option is declared and parsed, and nothing reads
    it: with every other input equal, a run with the option set gives the
    same result, and so the same sequence of mutating calls, as a run
    without it. *)
Theorem dry_run_has_no_effect
    (tz : Z -> string) (dryRun keepClosed keepClosedLists : bool) (answers : Answers.t)
    (trello : Board.t) (map : MapFormat.t) (tgt : Target.t) :
  run tz (Options.mk dryRun keepClosed keepClosedLists) answers trello map tgt
  = run tz (Options.mk (negb dryRun) keepClosed keepClosedLists) answers trello map tgt
  /\ Result.trace (run tz (Options.mk true keepClosed keepClosedLists) answers trello map tgt)
     = Result.trace (run tz (Options.mk false keepClosed keepClosedLists) answers trello map tgt).
Proof. split; reflexivity. Qed.

(** With [--dry-run] the example run still creates its issues. *)
Example dry_run_example :
  exists title body labels assignees milestone,
    In (CreateIssue title body labels assignees milestone)
       (Result.trace (run Ex.date_string (Options.mk true false false) Ex.yes Ex.board
                        (Ex.mapping None []) (Ex.target []))).
Proof. do 5 eexists. vm_compute. left. reflexivity. Qed.

(** ** The status synchroniser *)

Lemma getExistingProjectItems_from (pages : list (list ProjectNode.t))
    (acc : list ExistingItem.t) :
  fold_left (fun items nodes => items ++ omap toExistingItem nodes) pages acc
  = acc ++ concat (map (omap toExistingItem) pages).
Proof.
  revert acc. induction pages as [|nodes pages IH]; intros acc; simpl.
  - now rewrite app_nil_r.
  - now rewrite IH, app_assoc.
Qed.

Lemma getExistingProjectItems_concat (pages : list (list ProjectNode.t)) :
  getExistingProjectItems pages = concat (map (omap toExistingItem) pages).
Proof. unfold getExistingProjectItems. now rewrite getExistingProjectItems_from. Qed.

Lemma syncItem_Some (cards : list Card.t) (vsf : gmap string StatusOption.t)
    (item : ExistingItem.t) (expected : StatusOption.t) :
  syncItem cards vsf item = Some expected ->
  exists card,
    find (fun card => bool_decide (Card.name card = ExistingItem.issueTitle item)) cards
    = Some card
    /\ vsf !! Card.idList card = Some expected
    /\ ExistingItem.currentStatus item <> Some (StatusOption.name expected).
Proof.
  unfold syncItem.
  destruct (find _ cards) as [card|]; [|discriminate].
  destruct (vsf !! Card.idList card) as [o|] eqn:Ho; [|discriminate].
  destruct (bool_decide _) eqn:Hd; [discriminate|].
  intros [= <-]. exists card. repeat split; [exact Ho|].
  now apply bool_decide_eq_false in Hd.
Qed.

(** The decision for an item depends on its title and its current status
    only. *)
Lemma syncItem_converged (cards : list Card.t) (vsf : gmap string StatusOption.t)
    (item : ExistingItem.t) (expected : StatusOption.t) (id : string) (number : Z) :
  syncItem cards vsf item = Some expected ->
  syncItem cards vsf
    (ExistingItem.mk id number (ExistingItem.issueTitle item)
       (Some (StatusOption.name expected))) = None.
Proof.
  intros (card & Hcard & Ho & _)%syncItem_Some.
  unfold syncItem. cbn [ExistingItem.issueTitle ExistingItem.currentStatus].
  rewrite Hcard, Ho. now rewrite bool_decide_true.
Qed.

Section Converged.
Variable cards : list Card.t.
Variable vsf : gmap string StatusOption.t.
Hypothesis names_nonempty :
  forall k o, vsf !! k = Some o -> StatusOption.name o <> EmptyString.

Lemma node_after_sync_converged (node : ProjectNode.t) (item' : ExistingItem.t) :
  toExistingItem (node_after_sync cards vsf node) = Some item' ->
  syncItem cards vsf item' = None.
Proof.
  unfold node_after_sync.
  destruct (toExistingItem node) as [item|] eqn:Hitem; [|congruence].
  destruct (syncItem cards vsf item) as [expected|] eqn:Hsync; [|congruence].
  pose proof Hsync as (card & _ & Ho & _)%syncItem_Some.
  apply names_nonempty in Ho.
  unfold toExistingItem in *. cbn [ProjectNode.content ProjectNode.status ProjectNode.id].
  destruct (ProjectNode.content node) as [[number title]|]; [|discriminate].
  destruct (negb (bool_decide (number = 0))); [|discriminate].
  injection Hitem as <-.
  unfold nonempty. rewrite bool_decide_false by exact Ho. cbn [negb].
  intros [= <-].
  now apply (syncItem_converged cards vsf _ expected (ProjectNode.id node) number) in Hsync.
Qed.

Lemma items_after_sync_converged (pages : list (list ProjectNode.t)) :
  List.Forall (fun item => syncItem cards vsf item = None)
    (getExistingProjectItems (pages_after_sync cards vsf pages)).
Proof.
  rewrite getExistingProjectItems_concat. unfold pages_after_sync.
  apply List.Forall_forall. intros item Hin.
  apply in_concat in Hin as (items & Hitems & Hin).
  apply in_map_iff in Hitems as (nodes' & <- & Hnodes').
  apply in_map_iff in Hnodes' as (nodes & <- & _).
  apply list_elem_of_In, list_elem_of_omap in Hin as (node' & Hnode' & Hitem).
  apply list_elem_of_In, in_map_iff in Hnode' as (node & <- & _).
  now apply node_after_sync_converged in Hitem.
Qed.
End Converged.

Lemma forM_skip {A} (l : list A) (body : A -> Exec unit) (t : Trace) :
  List.Forall (fun x => body x = ret tt) l -> forM_ l body t = (t, Some tt).
Proof.
  induction 1 as [|x l Hx Hl IH]; [reflexivity|].
  cbn [forM_]. unfold bind. now rewrite Hx.
Qed.

(** When no status update fails, the synchronisation loop issues exactly the
    update calls of its items, in order. *)
Lemma sync_loop_trace (tgt : Target.t) (info : ProjectInfo.t) (cards : list Card.t)
    (vsf : gmap string StatusOption.t) (items : list ExistingItem.t) (t : Trace) :
  (forall t p i f o, Target.updateItemStatus tgt t p i f o = true) ->
  forM_ items (fun item =>
      match syncItem cards vsf item with
      | Some expectedStatus =>
          setIssueStatus tgt info (ExistingItem.id item) (StatusOption.id expectedStatus)
      | None => ret tt
      end) t
  = (t ++ concat (map (syncItemCalls info cards vsf) items), Some tt).
Proof.
  intros Hok. revert t. induction items as [|item items IH]; intros t.
  - cbn. now rewrite app_nil_r.
  - cbn [forM_ map concat]. unfold bind, syncItemCalls at 1.
    destruct (syncItem cards vsf item) as [expected|].
    + unfold setIssueStatus at 1. rewrite Hok, IH, <- app_assoc. reflexivity.
    + cbn [ret]. now rewrite IH.
Qed.

Lemma syncExistingItems_trace (tgt : Target.t) (plan : Plan.t) (info : ProjectInfo.t)
    (t : Trace) :
  Plan.projectInfo plan = Some info ->
  (forall t p i f o, Target.updateItemStatus tgt t p i f o = true) ->
  syncExistingItems tgt plan t
  = (t ++ (if (0 <? size (Resolution.validStatusFields (Plan.resolution plan)))%nat
           then concat (map (syncItemCalls info (Plan.cards plan)
                               (Resolution.validStatusFields (Plan.resolution plan)))
                          (getExistingProjectItems (Target.projectItemPages tgt)))
           else []),
     Some tt).
Proof.
  intros Hinfo Hok. unfold syncExistingItems. rewrite Hinfo.
  destruct (0 <? size _)%nat; [|now rewrite app_nil_r].
  destruct (getExistingProjectItems (Target.projectItemPages tgt)) as [|item items] eqn:Hitems.
  - cbn. now rewrite app_nil_r.
  - cbn [nonempty_list length Nat.ltb Nat.leb]. now apply sync_loop_trace.
Qed.

(** C6. For an existing project item whose title is that of a source card
    with a resolved status, the synchroniser issues one field-value update
    when the item's current status name differs from the expected status's
    name, and no call when it is equal; the pass as a whole issues these
    calls and no other.  Run again on the target as a completed pass left it
    (each updated item now carrying the name of its option, option names
    being non-empty), with the same cards and mappings, the synchroniser
    issues no call. *)
Theorem status_sync_updates_iff_differs_and_is_idempotent
    (plan : Plan.t) (info : ProjectInfo.t) :
  Plan.projectInfo plan = Some info ->
  let cards := Plan.cards plan in
  let vsf := Resolution.validStatusFields (Plan.resolution plan) in
  (forall item card expected,
     find (fun card => bool_decide (Card.name card = ExistingItem.issueTitle item)) cards
     = Some card ->
     vsf !! Card.idList card = Some expected ->
     (syncItemCalls info cards vsf item
      = [UpdateItemStatus (ProjectInfo.projectId info) (ExistingItem.id item)
           (ProjectInfo.statusFieldId info) (StatusOption.id expected)]
      <-> ExistingItem.currentStatus item <> Some (StatusOption.name expected))
     /\ (syncItemCalls info cards vsf item = []
         <-> ExistingItem.currentStatus item = Some (StatusOption.name expected)))
  /\ (forall tgt t,
        (forall t p i f o, Target.updateItemStatus tgt t p i f o = true) ->
        syncExistingItems tgt plan t
        = (t ++ (if (0 <? size vsf)%nat
                 then concat (map (syncItemCalls info cards vsf)
                                (getExistingProjectItems (Target.projectItemPages tgt)))
                 else []),
           Some tt))
  /\ (forall tgt tgt' t,
        (forall k o, vsf !! k = Some o -> StatusOption.name o <> EmptyString) ->
        Target.projectItemPages tgt'
        = pages_after_sync cards vsf (Target.projectItemPages tgt) ->
        syncExistingItems tgt' plan t = (t, Some tt)).
Proof.
  intros Hinfo cards vsf. split; [|split].
  - intros item card expected Hcard Ho.
    unfold syncItemCalls, syncItem. rewrite Hcard, Ho.
    destruct (bool_decide (ExistingItem.currentStatus item
                           = Some (StatusOption.name expected))) eqn:Hd; cbn [negb].
    + apply bool_decide_eq_true in Hd. split; split; try discriminate; try congruence.
    + apply bool_decide_eq_false in Hd. split; split; try discriminate; try congruence.
  - intros tgt t Hok. now apply syncExistingItems_trace.
  - intros tgt tgt' t Hnames Hpages. unfold syncExistingItems. rewrite Hinfo.
    fold vsf. destruct (0 <? size vsf)%nat; [|reflexivity].
    rewrite Hpages.
    destruct (nonempty_list _); [|reflexivity].
    apply forM_skip. fold cards.
    eapply List.Forall_impl; [|apply (items_after_sync_converged cards vsf Hnames)].
    intros item Hitem. cbn beta in Hitem. now rewrite Hitem.
Qed.

(** On the example project, "Fix bug" shows Done and is expected in Todo,
    "Add feature" shows Done and is expected in Done: the first pass issues
    one update, for "Fix bug", and a second pass issues none. *)
Lemma status_sync_updates_iff_differs_and_is_idempotent_witness :
  syncExistingItems (Ex.target [Ex.nodes]) Ex.sync_plan []
  = ([UpdateItemStatus "PVT_1" "IT1" "F1" "o1"], Some tt)
  /\ syncExistingItems
       (Ex.target (pages_after_sync (Plan.cards Ex.sync_plan)
                     (Resolution.validStatusFields (Plan.resolution Ex.sync_plan))
                     [Ex.nodes]))
       Ex.sync_plan []
     = ([], Some tt).
Proof.
  pose proof (status_sync_updates_iff_differs_and_is_idempotent
                Ex.sync_plan Ex.project eq_refl) as (_ & Hfirst & Hsecond).
  split.
  - rewrite (Hfirst (Ex.target [Ex.nodes]) []); [vm_compute; reflexivity | reflexivity].
  - apply (Hsecond (Ex.target [Ex.nodes])); [|reflexivity].
    intros k o Ho.
    assert (Hall : map_Forall (fun _ o => StatusOption.name o <> EmptyString)
                     (Resolution.validStatusFields (Plan.resolution Ex.sync_plan))).
    { apply (bool_decide_unpack _). vm_compute. exact I. }
    exact (Hall k o Ho).
Defined.

(** ** The list-rule resolver *)

Section ListRuleFacts.
Variable gl : list GhLabel.t.
Variable gm : list MilestoneInfo.t.
Variable projectInfo : option ProjectInfo.t.
Variable lists : list TrelloList.t.

Lemma labelBlock_passes (rule : ListRule.t) (tl : TrelloList.t) (st : Resolution.t) :
  label_rule_passes gl rule ->
  exists st1, labelBlock gl rule tl st = Next st1 /\ same_status_fields st st1.
Proof.
  unfold label_rule_passes, labelBlock, same_status_fields.
  destruct (ListRule.label rule) as [ref|]; [|intros _; now exists st].
  destruct (truthy ref); [|intros _; now exists st].
  intros Hpass. destruct (find (label_matches ref) gl) as [g|].
  - eexists. split; [reflexivity | now cbn].
  - now destruct Hpass.
Qed.

Lemma milestoneBlock_passes (rule : ListRule.t) (tl : TrelloList.t) (st : Resolution.t) :
  milestone_rule_passes gm rule ->
  exists st1, milestoneBlock gm rule tl st = Next st1 /\ same_status_fields st st1.
Proof.
  unfold milestone_rule_passes, milestoneBlock, same_status_fields.
  destruct (ListRule.milestone rule) as [ref|]; [|intros _; now exists st].
  destruct (truthy ref); [|intros _; now exists st].
  intros Hpass. destruct (find (milestone_matches ref) gm) as [g|].
  - eexists. split; [reflexivity | now cbn].
  - now destruct Hpass.
Qed.

(** The loop only ever appends to [missingStatusFields] and
    [statusFieldsToCreate]. *)
Lemma resolveListRule_appends (st : Resolution.t) (rule : ListRule.t) :
  exists missing toCreate,
    Resolution.missingStatusFields (resolveListRule gl gm projectInfo lists st rule)
    = Resolution.missingStatusFields st ++ missing
    /\ Resolution.statusFieldsToCreate (resolveListRule gl gm projectInfo lists st rule)
       = Resolution.statusFieldsToCreate st ++ toCreate.
Proof.
  unfold resolveListRule.
  destruct (find _ lists) as [tl|]; [|exists [], []; cbn; now rewrite !app_nil_r].
  unfold labelBlock, milestoneBlock, statusBlock.
  repeat match goal with
         | |- context [match ?x with _ => _ end] => destruct x; cbn
         end;
    first [ exists [], []; cbn; now rewrite !app_nil_r
          | eexists [_], []; cbn; now rewrite !app_nil_r
          | eexists [], [_]; cbn; now rewrite !app_nil_r ].
Qed.

Lemma resolveListRules_keeps (rules : list ListRule.t) (st : Resolution.t) :
  (forall ref, In ref (Resolution.missingStatusFields st) ->
     In ref (Resolution.missingStatusFields (resolveListRules gl gm projectInfo lists rules st)))
  /\ (forall e, In e (Resolution.statusFieldsToCreate st) ->
        In e (Resolution.statusFieldsToCreate
                (resolveListRules gl gm projectInfo lists rules st))).
Proof.
  revert st. induction rules as [|rule rules IH]; intros st; [now split|].
  cbn [resolveListRules fold_left].
  destruct (resolveListRule_appends st rule) as (missing & toCreate & Hm & Hc).
  destruct (IH (resolveListRule gl gm projectInfo lists st rule)) as [IHm IHc].
  split.
  - intros ref Hin. apply IHm. rewrite Hm. apply in_or_app. now left.
  - intros e Hin. apply IHc. rewrite Hc. apply in_or_app. now left.
Qed.
End ListRuleFacts.

(** C7 (as the program has it). For a list rule whose list reference names
    a source list, whose label and milestone rules (if any) resolve, and
    which has a truthy status reference, under a configured project: when an
    option of the project's status field is hit, the first such option is
    recorded in [validStatusFields] under the list's id, whatever the rule's
    create flag; on a miss with [create] set and a string reference, the
    list's id and the name are appended to [statusFieldsToCreate]; on a miss
    with [create] unset or a numeric reference, the reference is appended to
    [missingStatusFields].  Entries of the two lists stay until the end of
    the loop. *)
Theorem status_rule_resolution
    (gl : list GhLabel.t) (gm : list MilestoneInfo.t) (info : ProjectInfo.t)
    (lists : list TrelloList.t) (st : Resolution.t) (rule : ListRule.t)
    (trelloList : TrelloList.t) (ref : Ref) :
  find (list_matches (ListRule.list rule)) lists = Some trelloList ->
  label_rule_passes gl rule ->
  milestone_rule_passes gm rule ->
  ListRule.status rule = Some ref ->
  truthy ref = true ->
  let st' := resolveListRule gl gm (Some info) lists st rule in
  let options := ProjectInfo.statusFieldOptions info in
  (forall o, first_such (status_hit ref) options o ->
     Resolution.validStatusFields st'
     = <[TrelloList.id trelloList := o]> (Resolution.validStatusFields st)
     /\ Resolution.missingStatusFields st' = Resolution.missingStatusFields st
     /\ Resolution.statusFieldsToCreate st' = Resolution.statusFieldsToCreate st)
  /\ ((forall o, In o options -> ~ status_hit ref o) ->
      ListRule.create rule = true -> isString ref = true ->
      Resolution.statusFieldsToCreate st'
      = Resolution.statusFieldsToCreate st ++ [(TrelloList.id trelloList, ref_name ref)]
      /\ Resolution.validStatusFields st' = Resolution.validStatusFields st
      /\ Resolution.missingStatusFields st' = Resolution.missingStatusFields st
      /\ forall rest,
           In (TrelloList.id trelloList, ref_name ref)
              (Resolution.statusFieldsToCreate
                 (resolveListRules gl gm (Some info) lists rest st')))
  /\ ((forall o, In o options -> ~ status_hit ref o) ->
      ListRule.create rule = false \/ isInteger ref = true ->
      Resolution.missingStatusFields st' = Resolution.missingStatusFields st ++ [ref]
      /\ Resolution.validStatusFields st' = Resolution.validStatusFields st
      /\ Resolution.statusFieldsToCreate st' = Resolution.statusFieldsToCreate st
      /\ forall rest,
           In ref (Resolution.missingStatusFields
                     (resolveListRules gl gm (Some info) lists rest st'))).
Proof.
  intros Hlist Hlabel Hmilestone Hstatus Htruthy st' options.
  destruct (labelBlock_passes gl rule trelloList st Hlabel)
    as (st1 & Hst1 & Hv1 & Hm1 & Hc1 & _).
  destruct (milestoneBlock_passes gm rule trelloList st1 Hmilestone)
    as (st2 & Hst2 & Hv2 & Hm2 & Hc2 & _).
  assert (Hst' : st' = flow_state (statusBlock (Some info) rule trelloList st2)).
  { unfold st', resolveListRule. rewrite Hlist, Hst1. cbn [flow_bind]. now rewrite Hst2. }
  unfold statusBlock in Hst'. rewrite Hstatus in Hst'. cbn [truthy_opt] in Hst'.
  rewrite Htruthy, bool_decide_true in Hst' by (now exists info). cbn [andb] in Hst'.
  fold options in Hst'.
  split; [|split].
  - intros o Hfirst.
    rewrite (find_first_such _ _ (status_matches_hit ref) options o Hfirst) in Hst'.
    rewrite Hst'. cbn. now rewrite Hv2, Hv1, Hm2, Hm1, Hc2, Hc1.
  - intros Hmiss Hcreate Hstring.
    rewrite (find_None_none _ _ (status_matches_hit ref) options Hmiss) in Hst'.
    rewrite Hcreate, Hstring in Hst'. cbn [andb flow_state] in Hst'.
    assert (Hc : Resolution.statusFieldsToCreate st'
                 = Resolution.statusFieldsToCreate st
                   ++ [(TrelloList.id trelloList, ref_name ref)]).
    { rewrite Hst'. cbn. now rewrite Hc2, Hc1. }
    split; [exact Hc|]. split; [|split].
    + rewrite Hst'. cbn. now rewrite Hv2, Hv1.
    + rewrite Hst'. cbn. now rewrite Hm2, Hm1.
    + intros rest. apply resolveListRules_keeps. rewrite Hc.
      apply in_or_app. right. now left.
  - intros Hmiss Hcase.
    rewrite (find_None_none _ _ (status_matches_hit ref) options Hmiss) in Hst'.
    assert (Hcond : ListRule.create rule && isString ref = false).
    { destruct Hcase as [-> | Hint]; [reflexivity|].
      destruct ref; [discriminate Hint | apply andb_false_r]. }
    rewrite Hcond in Hst'. cbn [flow_state] in Hst'.
    assert (Hm : Resolution.missingStatusFields st'
                 = Resolution.missingStatusFields st ++ [ref]).
    { rewrite Hst'. cbn. now rewrite Hm2, Hm1. }
    split; [exact Hm|]. split; [|split].
    + rewrite Hst'. cbn. now rewrite Hv2, Hv1.
    + rewrite Hst'. cbn. now rewrite Hc2, Hc1.
    + intros rest. apply resolveListRules_keeps. rewrite Hm.
      apply in_or_app. right. now left.
Qed.

(** On the example project (options Todo and Done): a rule for list Done
    with status Review and [create = true] is recorded for manual creation;
    a rule for list Todo with status Todo is recorded in
    [validStatusFields] under the list's id. *)
Lemma status_rule_resolution_witness :
  Resolution.statusFieldsToCreate
    (resolveListRule [Ex.gh_bug] [Ex.v1] (Some Ex.project) [Ex.todo; Ex.done_]
       Resolution.init Ex.rule_review)
  = [("L2", "Review")]
  /\ Resolution.validStatusFields
       (resolveListRule [Ex.gh_bug] [Ex.v1] (Some Ex.project) [Ex.todo; Ex.done_]
          Resolution.init Ex.rule_todo)
     = <["L1" := Ex.opt_todo]> ∅.
Proof.
  split.
  - apply (status_rule_resolution [Ex.gh_bug] [Ex.v1] Ex.project [Ex.todo; Ex.done_]
             Resolution.init Ex.rule_review Ex.done_ (RefStr "Review")).
    + reflexivity.
    + exact I.
    + exact I.
    + reflexivity.
    + reflexivity.
    + intros o [<-|[<-|[]]] [H|H]; discriminate H.
    + reflexivity.
    + reflexivity.
  - apply (status_rule_resolution [Ex.gh_bug] [Ex.v1] Ex.project [Ex.todo; Ex.done_]
             Resolution.init Ex.rule_todo Ex.todo (RefStr "Todo")).
    + reflexivity.
    + exact I.
    + intros _. discriminate.
    + reflexivity.
    + reflexivity.
    + exists [], [Ex.opt_done]. split; [reflexivity|]. split; [now right | intros ? []].
Defined.

(** C7 (as stated) fails: a status rule on a list the board does not have is
    not evaluated.  Its reference misses every option and [create] is unset,
    yet nothing is recorded in [missingStatusFields]. *)
Lemma status_rule_on_unknown_list_not_recorded :
  ~ status_rule_always_recorded [Ex.gh_bug] [Ex.v1] Ex.project [Ex.todo; Ex.done_]
      Resolution.init Ex.rule_ghost.
Proof.
  intros Hclaim. specialize (Hclaim (RefStr "Review") eq_refl).
  vm_compute in Hclaim. exact Hclaim.
Qed.

(** ** The issue body *)

Lemma append_assoc (a b c : string) : (a +:+ b) +:+ c = a +:+ b +:+ c.
Proof.
  induction a as [|x a IH]; [reflexivity|].
  change (String x ((a +:+ b) +:+ c) = String x (a +:+ b +:+ c)). now f_equal.
Qed.

Lemma has_prefix_append (p s : string) : has_prefix p (p +:+ s) = true.
Proof.
  induction p as [|a p IH]; [reflexivity|].
  change (has_prefix (String a p) (String a (p +:+ s)) = true).
  cbn [has_prefix]. now rewrite bool_decide_true, IH.
Qed.

Lemma has_substring_append (pre p post : string) :
  has_substring p (pre +:+ p +:+ post) = true.
Proof.
  induction pre as [|a pre IH].
  - change (EmptyString +:+ p +:+ post) with (p +:+ post).
    destruct (p +:+ post) eqn:E; cbn [has_substring];
      rewrite <- E, has_prefix_append; reflexivity.
  - change (String a pre +:+ p +:+ post) with (String a (pre +:+ p +:+ post)).
    cbn [has_substring]. rewrite IH. apply orb_true_r.
Qed.

Lemma separator_before_substring (section body : string) :
  separator_before section body -> has_substring (separator +:+ section) body = true.
Proof.
  intros (pre & post & ->). rewrite <- (append_assoc separator section post).
  apply has_substring_append.
Qed.

Lemma checklist_section_shape (board : Board.t) (card : Card.t) :
  linkedChecklists board card <> [] ->
  exists rest,
    getChecklistContentForCard board card
    = Some ((nl +:+ "## Checklists") +:+ nl +:+ rest).
Proof.
  unfold getChecklistContentForCard.
  destruct (linkedChecklists board card) as [|checklist checklists]; [congruence|].
  intros _. cbn [length Nat.ltb Nat.leb map concat checklistLines].
  eexists. cbn [String.concat app]. reflexivity.
Qed.

(** C4 (as the program has it). For a card with an empty description and at
    least one linked checklist on the board, the body is the checklist
    section, one separator, the provenance line and the attachment lines:
    there is one separator, before the provenance section, and none before
    the checklist section, with which the body starts. *)
Theorem empty_description_body
    (board : Board.t) (card : Card.t) :
  Card.desc card = EmptyString ->
  linkedChecklists board card <> [] ->
  exists section,
    getChecklistContentForCard board card = Some section
    /\ has_prefix (nl +:+ "## Checklists") section = true
    /\ getDescriptionForCard board card
       = section +:+ separator +:+ provenance card +:+ attachmentLines card
    /\ has_prefix separator (getDescriptionForCard board card) = false.
Proof.
  intros Hdesc Hlinked.
  destruct (checklist_section_shape board card Hlinked) as [rest Hsection].
  eexists. split; [exact Hsection|].
  unfold getDescriptionForCard. rewrite Hsection, Hdesc.
  cbn [truthy_str default].
  assert (Hempty : nonempty EmptyString = false) by reflexivity.
  assert (Hsome : nonempty ((nl +:+ "## Checklists") +:+ nl +:+ rest) = true) by reflexivity.
  rewrite Hempty, Hsome. cbn [orb].
  change (EmptyString +:+ ?x) with x.
  split; [|split].
  - apply has_prefix_append.
  - now rewrite !append_assoc.
  - reflexivity.
Qed.

Lemma empty_description_body_witness :
  getDescriptionForCard Ex.board Ex.card1
  = (nl +:+ "## Checklists" +:+ nl +:+ "### Steps" +:+ nl +:+ "- [x] write" +:+ nl
     +:+ "- [ ] review")
    +:+ separator
    +:+ ("> Migrated from [Trello Card](https://trello.example/c/C1)" +:+ nl)
    +:+ "- [spec.pdf](https://trello.example/a/spec.pdf)".
Proof.
  destruct (empty_description_body Ex.board Ex.card1) as (section & Hsection & _ & Hbody & _).
  - reflexivity.
  - vm_compute. discriminate.
  - rewrite Hbody. vm_compute in Hsection. injection Hsection as <-. vm_compute. reflexivity.
Defined.

(** C4 (as stated) fails: the body of the example card, which has an empty
    description, one checklist and one attachment, has no separator before
    its checklist section. *)
Lemma no_separator_before_checklists : ~ two_separators Ex.board Ex.card1.
Proof.
  intros Hclaim.
  destruct Hclaim as (section & Hsection & Hbefore & _).
  - reflexivity.
  - vm_compute. discriminate.
  - vm_compute. discriminate.
  - apply separator_before_substring in Hbefore.
    vm_compute in Hsection. injection Hsection as <-.
    vm_compute in Hbefore. discriminate Hbefore.
Qed.

(** The body of the example card has one separator in all. *)
Example one_separator_example :
  count_occurrences separator (getDescriptionForCard Ex.board Ex.card1) = 1%nat.
Proof. reflexivity. Qed.

(** ** Where the program departs from its description *)

(** Nothing sets [usedStatusWithoutProject]: the assignment sits under
    [if (projectInfo && mapping.status)] and is guarded by [!projectInfo]. *)
Lemma statusBlock_flag (projectInfo : option ProjectInfo.t) (rule : ListRule.t)
    (tl : TrelloList.t) (st : Resolution.t) :
  Resolution.usedStatusWithoutProject (flow_state (statusBlock projectInfo rule tl st))
  = Resolution.usedStatusWithoutProject st.
Proof.
  unfold statusBlock. destruct projectInfo as [info|]; [|reflexivity].
  destruct (bool_decide _ && _); [|reflexivity].
  destruct (ListRule.status rule) as [ref|]; [|reflexivity].
  destruct (find _ _); [reflexivity|].
  destruct (_ && _); reflexivity.
Qed.

Lemma resolveListRule_flag (gl : list GhLabel.t) (gm : list MilestoneInfo.t)
    (projectInfo : option ProjectInfo.t) (lists : list TrelloList.t)
    (st : Resolution.t) (rule : ListRule.t) :
  Resolution.usedStatusWithoutProject (resolveListRule gl gm projectInfo lists st rule)
  = Resolution.usedStatusWithoutProject st.
Proof.
  unfold resolveListRule. destruct (find _ lists) as [tl|]; [|reflexivity].
  unfold labelBlock.
  destruct (ListRule.label rule) as [lref|]; [destruct (truthy lref); [destruct (find _ gl)|]|];
    cbn [flow_bind flow_state]; try reflexivity.
  all: unfold milestoneBlock;
    destruct (ListRule.milestone rule) as [mref|];
    [destruct (truthy mref); [destruct (find _ gm)|]|];
    cbn [flow_bind flow_state]; try reflexivity;
    now rewrite statusBlock_flag.
Qed.

Lemma resolveListRules_flag (gl : list GhLabel.t) (gm : list MilestoneInfo.t)
    (projectInfo : option ProjectInfo.t) (lists : list TrelloList.t)
    (rules : list ListRule.t) (st : Resolution.t) :
  Resolution.usedStatusWithoutProject (resolveListRules gl gm projectInfo lists rules st)
  = Resolution.usedStatusWithoutProject st.
Proof.
  unfold resolveListRules. revert st.
  induction rules as [|rule rules IH]; intros st; [reflexivity|].
  cbn [fold_left]. now rewrite IH, resolveListRule_flag.
Qed.

Lemma makePlan_flag (opts : Options.t) (trello : Board.t) (map : MapFormat.t)
    (tgt : Target.t) (plan : Plan.t) :
  makePlan opts trello map tgt = Some plan ->
  Resolution.usedStatusWithoutProject (Plan.resolution plan) = false.
Proof.
  unfold makePlan.
  destruct (resolveUsers _ _ _); [|discriminate].
  destruct (getProjectInfo map tgt); [|discriminate].
  destruct (resolveSkips _ _ _). intros [= <-].
  cbn [Plan.resolution Resolution.usedStatusWithoutProject].
  now rewrite resolveListRules_flag.
Qed.

(** C1 (the program at a failing input). With no project number and the
    list rule [{ list = "Todo", milestone = "v1", status = "Todo" }], the run
    does not report that a status is used without a project: the flag stays
    unset, the plan is valid, the log has no such error, and the run goes on
    to create the issues. *)
Theorem status_without_project_is_not_reported :
  let map := Ex.mapping None [Ex.rule_todo] in
  let r := run Ex.date_string Ex.no_options Ex.yes Ex.board map (Ex.target []) in
  MapFormat.project map = None
  /\ ListRule.status Ex.rule_todo = Some (RefStr "Todo")
  /\ (exists plan,
        makePlan Ex.no_options Ex.board map (Ex.target []) = Some plan
        /\ Resolution.usedStatusWithoutProject (Plan.resolution plan) = false
        /\ Resolution.validStatusFields (Plan.resolution plan) = ∅
        /\ planInvalid plan = false)
  /\ Result.log r = []
  /\ Result.outcome r = Completed
  /\ length (Result.trace r) = 6%nat.
Proof.
  cbv zeta. split; [reflexivity|]. split; [reflexivity|]. split.
  - eexists. split; [vm_compute; reflexivity|]. now vm_compute.
  - now vm_compute.
Qed.

(** C2 (the program at a failing input). The Todo list of the example board
    resolves to milestone [v1], recorded under the list's id ["L1"]; the
    issue-creation call for the card ["C1"] of that list reads the map under
    the card's id and passes no milestone. *)
Theorem issue_milestone_read_under_card_id :
  let map := Ex.mapping None [Ex.rule_todo] in
  exists plan body labels assignees rest,
    makePlan Ex.no_options Ex.board map (Ex.target []) = Some plan
    /\ Card.idList Ex.card1 = "L1"
    /\ Resolution.validMilestones (Plan.resolution plan) !! "L1" = Some Ex.v1
    /\ issueMilestone plan Ex.card1 = None
    /\ Result.trace (run Ex.date_string Ex.no_options Ex.yes Ex.board map (Ex.target []))
       = CreateIssue "Fix bug" body labels assignees None :: rest.
Proof.
  cbv zeta. do 5 eexists. split; [vm_compute; reflexivity|].
  split; [reflexivity|]. split; [now vm_compute|]. split; [now vm_compute|].
  vm_compute. reflexivity.
Qed.

(** The milestone passed for a card is the one recorded under the card's
    id, whatever its list. *)
Lemma issueMilestone_key (plan : Plan.t) (card : Card.t) :
  issueMilestone plan card
  = MilestoneInfo.number <$> Resolution.validMilestones (Plan.resolution plan) !! Card.id card.
Proof. reflexivity. Qed.

(** A label rule that finds no target label ends the iteration: the entry
    [missingList] is pushed and nothing else changes. *)
Lemma failed_label_rule_ends_iteration (gl : list GhLabel.t) (gm : list MilestoneInfo.t)
    (projectInfo : option ProjectInfo.t) (lists : list TrelloList.t)
    (st : Resolution.t) (rule : ListRule.t) (tl : TrelloList.t) (ref : Ref) :
  find (list_matches (ListRule.list rule)) lists = Some tl ->
  ListRule.label rule = Some ref ->
  truthy ref = true ->
  find (label_matches ref) gl = None ->
  resolveListRule gl gm projectInfo lists st rule
  = Resolution.push_label (missingList ref tl) st.
Proof.
  intros Hlist Hlabel Htruthy Hfind. unfold resolveListRule, labelBlock.
  now rewrite Hlist, Hlabel, Htruthy, Hfind.
Qed.

(** C3 (the program at a failing input). For the list rule of the example
    whose label, milestone and status references all miss, only the label is
    collected: the milestone and the status rule are not evaluated, and the
    report of the run has the missing label alone.  Likewise a missing
    milestone keeps the status rule of its list from being evaluated. *)
Theorem failed_label_rule_hides_milestone_and_status :
  let st :=
    resolveListRules [Ex.gh_bug] [Ex.v1] (Some Ex.project) [Ex.todo; Ex.done_]
      [Ex.rule_all_missing] Resolution.init in
  let r :=
    run Ex.date_string Ex.no_options Ex.yes Ex.board
      (Ex.mapping (Some 3) [Ex.rule_all_missing]) (Ex.target []) in
  find (milestone_matches (RefStr "nomilestone")) [Ex.v1] = None
  /\ find (status_matches (RefStr "nostatus")) (ProjectInfo.statusFieldOptions Ex.project) = None
  /\ Resolution.labels st = [missingList (RefStr "nolabel") Ex.todo]
  /\ Resolution.missingMilestones st = []
  /\ Resolution.missingStatusFields st = []
  /\ Result.log r = [ErrMissingLabels [missingList (RefStr "nolabel") Ex.todo]]
  /\ Resolution.missingStatusFields
       (resolveListRules [Ex.gh_bug] [Ex.v1] (Some Ex.project) [Ex.todo; Ex.done_]
          [ListRule.mk "Todo" (Some (RefStr "nostatus")) false None
             (Some (RefStr "nomilestone"))]
          Resolution.init) = [].
Proof. cbv zeta. now vm_compute. Qed.

(** * Further properties of the program *)

(** ** The plan, piece by piece *)

Lemma makePlan_Some (opts : Options.t) (trello : Board.t) (map : MapFormat.t)
    (tgt : Target.t) (plan : Plan.t) :
  makePlan opts trello map tgt = Some plan ->
  exists users projectInfo,
    resolveUsers (Target.lookupUser tgt) (MapFormat.users map) [] = Some users
    /\ getProjectInfo map tgt = Some projectInfo
    /\ let st :=
         resolveListRules (Target.githubLabels tgt) (Target.githubMilestones tgt)
           projectInfo (Board.lists trello) (MapFormat.lists map)
           (Resolution.mk
              (resolveLabels (MapFormat.labels map) (Target.githubLabels tgt)
                 (Board.labels trello))
              [] ∅ [] false ∅ [] []) in
       let skips :=
         resolveSkips (Board.lists trello) (MapFormat.skip_lists map)
           (Resolution.invalidLists st) in
       plan
       = Plan.mk
           (List.filter
              (fun card =>
                 negb (existsb (fun l => bool_decide (TrelloList.id l = Card.idList card))
                         (fst skips)))
              (keptCards opts trello))
           users projectInfo
           (Resolution.mk (Resolution.labels st) (snd skips) (Resolution.validMilestones st)
              (Resolution.missingMilestones st) (Resolution.usedStatusWithoutProject st)
              (Resolution.validStatusFields st) (Resolution.missingStatusFields st)
              (Resolution.statusFieldsToCreate st))
           (fst skips).
Proof.
  unfold makePlan.
  destruct (resolveUsers _ _ _) as [users|]; [|discriminate].
  destruct (getProjectInfo map tgt) as [projectInfo|]; [|discriminate].
  intros Hplan. exists users, projectInfo.
  split; [reflexivity|]. split; [reflexivity|]. cbv zeta.
  destruct (resolveSkips _ _ _) as [skipped invalid].
  now injection Hplan as <-.
Qed.

(** ** Archived cards and lists *)

(** X1. The cards kept for the import are the cards of the board that are
    not archived (unless [--keep-closed] is given) and that do not lie in an
    archived list (unless [--keep-closed-lists] is given). *)
Theorem kept_cards_spec (opts : Options.t) (trello : Board.t) (card : Card.t) :
  In card (keptCards opts trello)
  <-> In card (Board.cards trello)
      /\ (Options.keepClosed opts = false -> Card.closed card = false)
      /\ (Options.keepClosedLists opts = false ->
          forall l, In l (Board.lists trello) -> TrelloList.closed l = true ->
                    TrelloList.id l <> Card.idList card).
Proof.
  assert (Hclosed :
    forall c, negb (bool_decide (Card.idList c ∈
                map TrelloList.id (List.filter (fun l => TrelloList.closed l)
                                     (Board.lists trello)))) = true
              <-> forall l, In l (Board.lists trello) -> TrelloList.closed l = true ->
                            TrelloList.id l <> Card.idList c).
  { intros c. rewrite negb_true_iff, bool_decide_eq_false, list_elem_of_In, in_map_iff.
    split.
    - intros Hno l Hl Hc Hid. apply Hno. exists l. split; [exact Hid|].
      apply filter_In. now split.
    - intros Hall (l & Hid & Hl). apply filter_In in Hl as [Hl Hc]. now apply (Hall l). }
  unfold keptCards.
  destruct (Options.keepClosed opts), (Options.keepClosedLists opts);
    rewrite ?filter_In, ?Hclosed, ?negb_true_iff; intuition congruence.
Qed.

(** ** List references that name no list *)

Lemma resolveSkips_from (lists : list TrelloList.t) (keys : list string)
    (skipped : list TrelloList.t) (invalid : list string) :
  fold_left
    (fun '(skippedLists, invalidLists) listKey =>
       match find (list_matches listKey) lists with
       | Some trelloList => (skippedLists ++ [trelloList], invalidLists)
       | None => (skippedLists, invalidLists ++ [listKey])
       end)
    keys (skipped, invalid)
  = (skipped ++ omap (fun key => find (list_matches key) lists) keys,
     invalid ++ List.filter (unresolved lists) keys).
Proof.
  revert skipped invalid. induction keys as [|key keys IH]; intros skipped invalid.
  - cbn. now rewrite !app_nil_r.
  - cbn [fold_left omap list_omap List.filter].
    destruct (find (list_matches key) lists) as [l|] eqn:Hfind.
    + assert (Hu : unresolved lists key = false) by (unfold unresolved; now rewrite Hfind).
      rewrite IH, Hu, <- app_assoc. reflexivity.
    + assert (Hu : unresolved lists key = true) by (unfold unresolved; now rewrite Hfind).
      rewrite IH, Hu, <- app_assoc. reflexivity.
Qed.

Lemma resolveSkips_spec (lists : list TrelloList.t) (keys invalid : list string) :
  resolveSkips lists keys invalid
  = (omap (fun key => find (list_matches key) lists) keys,
     invalid ++ List.filter (unresolved lists) keys).
Proof. unfold resolveSkips. now rewrite resolveSkips_from. Qed.

Lemma resolveListRule_invalidLists (gl : list GhLabel.t) (gm : list MilestoneInfo.t)
    (projectInfo : option ProjectInfo.t) (lists : list TrelloList.t)
    (st : Resolution.t) (rule : ListRule.t) :
  Resolution.invalidLists (resolveListRule gl gm projectInfo lists st rule)
  = Resolution.invalidLists st
    ++ (if unresolved lists (ListRule.list rule) then [ListRule.list rule] else []).
Proof.
  unfold resolveListRule, unresolved.
  destruct (find _ lists) as [tl|]; [|reflexivity].
  rewrite app_nil_r. unfold labelBlock, milestoneBlock, statusBlock.
  repeat match goal with
         | |- context [match ?x with _ => _ end] => destruct x; cbn
         end; reflexivity.
Qed.

Lemma resolveListRules_invalidLists (gl : list GhLabel.t) (gm : list MilestoneInfo.t)
    (projectInfo : option ProjectInfo.t) (lists : list TrelloList.t)
    (rules : list ListRule.t) (st : Resolution.t) :
  Resolution.invalidLists (resolveListRules gl gm projectInfo lists rules st)
  = Resolution.invalidLists st
    ++ List.filter (unresolved lists) (map ListRule.list rules).
Proof.
  unfold resolveListRules. revert st.
  induction rules as [|rule rules IH]; intros st; cbn [fold_left map List.filter].
  - now rewrite app_nil_r.
  - rewrite IH, resolveListRule_invalidLists, <- app_assoc.
    now destruct (unresolved lists (ListRule.list rule)).
Qed.

Lemma planInvalid_invalidLists (p : Plan.t) :
  Resolution.invalidLists (Plan.resolution p) <> [] -> planInvalid p = true.
Proof.
  intros H. apply nonempty_list_true in H. unfold planInvalid. rewrite H.
  now rewrite !orb_true_r.
Qed.

(** X2. The list references the plan reports as invalid are exactly the list
    references of the list rules, then those of [skip.lists], that name no
    list of the board by id or by name, in order; one such reference makes
    the plan invalid. *)
Theorem invalid_lists_spec (opts : Options.t) (trello : Board.t) (map : MapFormat.t)
    (tgt : Target.t) (plan : Plan.t) :
  makePlan opts trello map tgt = Some plan ->
  Resolution.invalidLists (Plan.resolution plan)
  = List.filter (unresolved (Board.lists trello)) (List.map ListRule.list (MapFormat.lists map))
    ++ List.filter (unresolved (Board.lists trello)) (MapFormat.skip_lists map)
  /\ (forall key,
        In key (List.map ListRule.list (MapFormat.lists map)) \/ In key (MapFormat.skip_lists map) ->
        (forall l, In l (Board.lists trello) ->
                   TrelloList.id l <> key /\ TrelloList.name l <> key) ->
        In key (Resolution.invalidLists (Plan.resolution plan)) /\ planInvalid plan = true).
Proof.
  intros (users & projectInfo & _ & _ & ->)%makePlan_Some.
  cbn [Plan.resolution Resolution.invalidLists].
  rewrite resolveSkips_spec. cbn [snd].
  rewrite resolveListRules_invalidLists. cbn [Resolution.invalidLists app].
  split; [reflexivity|].
  intros key Hkey Hnone.
  assert (Hunres : unresolved (Board.lists trello) key = true).
  { unfold unresolved.
    destruct (find (list_matches key) (Board.lists trello)) as [l|] eqn:Hfind; [|reflexivity].
    apply find_some in Hfind as [Hin Hm]. destruct (Hnone l Hin) as [Hid Hname].
    unfold list_matches in Hm. apply orb_true_iff in Hm.
    destruct Hm as [Hm|Hm]; apply bool_decide_eq_true in Hm; congruence. }
  assert (Hin : In key
                  (List.filter (unresolved (Board.lists trello))
                     (List.map ListRule.list (MapFormat.lists map))
                   ++ List.filter (unresolved (Board.lists trello)) (MapFormat.skip_lists map))).
  { apply in_or_app. destruct Hkey as [Hkey|Hkey]; [left | right]; now apply filter_In. }
  split; [exact Hin|].
  apply planInvalid_invalidLists.
  cbn [Plan.resolution Resolution.invalidLists]. rewrite ?resolveSkips_spec. cbn [snd].
  rewrite ?resolveListRules_invalidLists. cbn [Resolution.invalidLists app].
  intros Heq. rewrite Heq in Hin. destruct Hin.
Qed.

Lemma invalid_lists_spec_witness :
  exists plan,
    makePlan Ex.no_options Ex.board Ex2.mapping_skip (Ex.target []) = Some plan
    /\ Resolution.invalidLists (Plan.resolution plan) = ["Ghost"]
    /\ planInvalid plan = true.
Proof.
  eexists. split; [vm_compute; reflexivity|].
  split.
  - rewrite (proj1 (invalid_lists_spec Ex.no_options Ex.board Ex2.mapping_skip (Ex.target []) _
                      ltac:(vm_compute; reflexivity))).
    reflexivity.
  - apply (proj2 (invalid_lists_spec Ex.no_options Ex.board Ex2.mapping_skip (Ex.target []) _
                    ltac:(vm_compute; reflexivity)) "Ghost").
    + right. right. now left.
    + intros l [<-|[<-|[]]]; split; discriminate.
Defined.

(** X3. The cards of the plan are the kept cards that lie in no list named,
    by id or by name, in [skip.lists]. *)
Theorem planned_cards_spec (opts : Options.t) (trello : Board.t) (map : MapFormat.t)
    (tgt : Target.t) (plan : Plan.t) :
  makePlan opts trello map tgt = Some plan ->
  forall card,
    In card (Plan.cards plan)
    <-> In card (keptCards opts trello)
        /\ forall key l,
             In key (MapFormat.skip_lists map) ->
             find (list_matches key) (Board.lists trello) = Some l ->
             TrelloList.id l <> Card.idList card.
Proof.
  intros (users & projectInfo & _ & _ & ->)%makePlan_Some card.
  cbn [Plan.cards]. rewrite resolveSkips_spec. cbn [fst].
  rewrite filter_In, negb_true_iff.
  split.
  - intros [Hkept Hnone]. split; [exact Hkept|].
    intros key l Hkey Hfind Hid.
    assert (Hex : existsb (fun l => bool_decide (TrelloList.id l = Card.idList card))
                    (omap (fun key => find (list_matches key) (Board.lists trello))
                       (MapFormat.skip_lists map)) = true).
    { apply existsb_exists. exists l. split; [|now apply bool_decide_eq_true].
      apply list_elem_of_In, list_elem_of_omap. exists key. split; [|exact Hfind].
      now apply list_elem_of_In. }
    congruence.
  - intros [Hkept Hall]. split; [exact Hkept|].
    apply not_true_is_false. intros (l & Hl & Hid)%existsb_exists.
    apply bool_decide_eq_true in Hid.
    apply list_elem_of_In, list_elem_of_omap in Hl as (key & Hkey & Hfind).
    apply list_elem_of_In in Hkey. now apply (Hall key l).
Qed.

Lemma planned_cards_spec_witness :
  exists plan,
    makePlan Ex.no_options Ex.board Ex2.mapping_skip (Ex.target []) = Some plan
    /\ In Ex.card1 (Plan.cards plan)
    /\ ~ In Ex.card2 (Plan.cards plan).
Proof.
  eexists. split; [vm_compute; reflexivity|].
  pose proof (planned_cards_spec Ex.no_options Ex.board Ex2.mapping_skip (Ex.target []) _
                ltac:(vm_compute; reflexivity)) as Hspec.
  split.
  - apply Hspec. split; [now left|].
    intros key l [<-|[<-|[]]]; vm_compute; intros [= <-]; discriminate.
  - intros Hin. apply Hspec in Hin as [_ Hall].
    apply (Hall "Done" Ex.done_); [now left | reflexivity | reflexivity].
Defined.

(** ** User lookups *)

Lemma resolveUsers_Some (lookup : string -> UserLookup) (rules : list UserRule.t)
    (acc users : list Member) :
  resolveUsers lookup rules acc = Some users ->
  users = acc ++ map (classifyUser lookup) rules
  /\ forall rule, In rule rules -> lookup (UserRule.github rule) <> UserLookupFailed.
Proof.
  revert acc. induction rules as [|rule rules IH]; intros acc; cbn [resolveUsers map].
  - intros [= <-]. rewrite app_nil_r. split; [reflexivity | intros ? []].
  - unfold classifyUser at 1.
    destruct (lookup (UserRule.github rule)) as [login| |] eqn:Hlookup; [| |discriminate].
    + intros [-> Hrest]%IH. rewrite <- app_assoc. split; [reflexivity|].
      intros r [<-|Hr]; [congruence | now apply Hrest].
    + intros [-> Hrest]%IH. rewrite <- app_assoc. split; [reflexivity|].
      intros r [<-|Hr]; [congruence | now apply Hrest].
Qed.

Lemma resolveUsers_total (lookup : string -> UserLookup) (rules : list UserRule.t)
    (acc : list Member) :
  (forall rule, In rule rules -> lookup (UserRule.github rule) <> UserLookupFailed) ->
  resolveUsers lookup rules acc = Some (acc ++ map (classifyUser lookup) rules).
Proof.
  revert acc. induction rules as [|rule rules IH]; intros acc Hok; cbn [resolveUsers map].
  - now rewrite app_nil_r.
  - unfold classifyUser at 1.
    pose proof (Hok rule (or_introl eq_refl)) as Hrule.
    destruct (lookup (UserRule.github rule)) as [login| |]; [| |congruence];
      (rewrite IH by (intros r Hr; apply Hok; now right));
      now rewrite <- app_assoc.
Qed.

Lemma resolveUsers_throws (lookup : string -> UserLookup) (rules : list UserRule.t)
    (acc : list Member) :
  (exists rule, In rule rules /\ lookup (UserRule.github rule) = UserLookupFailed) ->
  resolveUsers lookup rules acc = None.
Proof.
  intros (rule & Hin & Hfail).
  destruct (resolveUsers lookup rules acc) as [users|] eqn:Hres; [|reflexivity].
  apply resolveUsers_Some in Hres as [_ Hok]. now destruct (Hok rule Hin).
Qed.

(** X4. The user rules are looked up in order.  When no lookup fails with
    anything but a 404, every rule gives one entry, verified when the target
    knows the user and unverified on a 404.  When a lookup fails otherwise,
    the exception ends the run: no mutating call has been issued and nothing
    has been reported. *)
Theorem user_lookup_spec (tz : Z -> string) (opts : Options.t) (answers : Answers.t)
    (trello : Board.t) (map : MapFormat.t) (tgt : Target.t) :
  ((forall rule, In rule (MapFormat.users map) ->
      Target.lookupUser tgt (UserRule.github rule) <> UserLookupFailed) ->
   resolveUsers (Target.lookupUser tgt) (MapFormat.users map) []
   = Some (List.map (classifyUser (Target.lookupUser tgt)) (MapFormat.users map)))
  /\ ((exists rule, In rule (MapFormat.users map)
                    /\ Target.lookupUser tgt (UserRule.github rule) = UserLookupFailed) ->
      resolveUsers (Target.lookupUser tgt) (MapFormat.users map) [] = None
      /\ run tz opts answers trello map tgt = Result.mk [] [] Thrown).
Proof.
  split.
  - intros Hok. now rewrite resolveUsers_total.
  - intros Hfail. apply (resolveUsers_throws _ _ []) in Hfail.
    split; [exact Hfail|]. unfold run, makePlan. now rewrite Hfail.
Qed.

Lemma user_lookup_spec_witness :
  resolveUsers (Target.lookupUser (Ex.target [])) (MapFormat.users Ex2.mapping_users) []
  = Some [verified "alice" "alice-gh"; unverified "bob" "bob-gh"]
  /\ run Ex.date_string Ex.no_options Ex.yes Ex.board Ex2.mapping_users Ex2.target_lookup_fails
     = Result.mk [] [] Thrown.
Proof.
  split.
  - rewrite (proj1 (user_lookup_spec Ex.date_string Ex.no_options Ex.yes Ex.board
                      Ex2.mapping_users (Ex.target []))); [reflexivity|].
    intros rule [<-|[<-|[]]]; vm_compute; discriminate.
  - apply (proj2 (user_lookup_spec Ex.date_string Ex.no_options Ex.yes Ex.board
                    Ex2.mapping_users Ex2.target_lookup_fails)).
    exists (UserRule.mk "bob" "bob-gh"). split; [right; now left | reflexivity].
Defined.

Lemma planInvalid_invalidMembers (p : Plan.t) :
  Plan.invalidMembers p <> [] -> planInvalid p = true.
Proof.
  intros H. apply nonempty_list_true in H. unfold planInvalid. rewrite H.
  now rewrite !orb_true_r.
Qed.

(** X5. A user rule whose GitHub user does not exist (404) is kept as an
    unverified member, which makes the plan invalid: the run reports it and
    exits with code 1 before any mutating call. *)
Theorem unknown_user_invalidates_plan (tz : Z -> string) (opts : Options.t)
    (answers : Answers.t) (trello : Board.t) (map : MapFormat.t) (tgt : Target.t)
    (plan : Plan.t) (rule : UserRule.t) :
  makePlan opts trello map tgt = Some plan ->
  In rule (MapFormat.users map) ->
  Target.lookupUser tgt (UserRule.github rule) = UserNotFound ->
  In (unverified (UserRule.trello rule) (UserRule.github rule)) (Plan.invalidMembers plan)
  /\ planInvalid plan = true
  /\ In (ErrInvalidMembers (Plan.invalidMembers plan)) (planLog plan)
  /\ run tz opts answers trello map tgt = Result.mk [] (planLog plan) (Exited 1).
Proof.
  intros Hplan Hrule Hlookup.
  assert (Hin : In (unverified (UserRule.trello rule) (UserRule.github rule))
                  (Plan.invalidMembers plan)).
  { pose proof Hplan as (users & projectInfo & Husers & _ & ->)%makePlan_Some.
    apply resolveUsers_Some in Husers as [-> _].
    unfold Plan.invalidMembers. cbn [Plan.users app].
    apply filter_In. split; [|reflexivity].
    apply in_map_iff. exists rule. split; [|exact Hrule].
    unfold classifyUser. now rewrite Hlookup. }
  assert (Hne : Plan.invalidMembers plan <> []) by (intros Heq; rewrite Heq in Hin; destruct Hin).
  pose proof (planInvalid_invalidMembers plan Hne) as Hinv.
  split; [exact Hin|]. split; [exact Hinv|]. split.
  - now apply planLog_complete.
  - unfold run. now rewrite Hplan, Hinv.
Qed.

Lemma unknown_user_invalidates_plan_witness :
  run Ex.date_string Ex.no_options Ex.yes Ex.board Ex2.mapping_users (Ex.target [])
  = Result.mk [] [ErrInvalidMembers [unverified "bob" "bob-gh"]] (Exited 1).
Proof.
  destruct (makePlan Ex.no_options Ex.board Ex2.mapping_users (Ex.target [])) as [plan|] eqn:Hplan;
    [|vm_compute in Hplan; discriminate].
  rewrite (proj2 (proj2 (proj2 (unknown_user_invalidates_plan Ex.date_string Ex.no_options
                                  Ex.yes Ex.board Ex2.mapping_users (Ex.target []) plan
                                  (UserRule.mk "bob" "bob-gh") Hplan
                                  ltac:(right; now left) eq_refl)))).
  vm_compute in Hplan. injection Hplan as <-. reflexivity.
Defined.

(** ** Assignees and labels of a card *)

Lemma mapMemberId_Some (board : Board.t) (vm : list Member) (id login : string) :
  mapMemberId board vm id = Some login ->
  exists member t,
    In member (Board.members board)
    /\ TrelloMember.id member = id
    /\ In (verified t login) vm
    /\ (t = TrelloMember.id member \/ t = TrelloMember.username member
        \/ t = TrelloMember.fullName member).
Proof.
  unfold mapMemberId.
  destruct (find _ (Board.members board)) as [member|] eqn:Hmember; [|discriminate].
  apply find_some in Hmember as [Hin Hid]. apply bool_decide_eq_true in Hid.
  destruct (find _ vm) as [[t l|t g]|] eqn:Hvm; try discriminate.
  intros [= ->]. apply find_some in Hvm as [Hvm Ht].
  apply bool_decide_eq_true in Ht. cbn [member_trelloName] in Ht.
  exists member, t. repeat split; [exact Hin | exact Hid | exact Hvm |].
  apply list_elem_of_In in Ht. cbn in Ht. intuition congruence.
Qed.

Lemma omap_length_le {A B} (f : A -> option B) (l : list A) :
  (length (omap f l) <= length l)%nat.
Proof.
  induction l as [|x l IH]; cbn; [lia|]. destruct (f x); cbn; lia.
Qed.

(** X6. Every assignee of an issue is the GitHub login of a verified member
    whose Trello name is the id, the username or the full name of a board
    member assigned to the card; ids that match no board member or no verified
    member are dropped, so there are at most as many assignees as member ids. *)
Theorem assignees_are_verified_members (board : Board.t) (vm : list Member)
    (ids : list string) :
  (forall login, In login (mapMemberIds board vm ids) ->
     exists id member t,
       In id ids
       /\ In member (Board.members board)
       /\ TrelloMember.id member = id
       /\ In (verified t login) vm
       /\ (t = TrelloMember.id member \/ t = TrelloMember.username member
           \/ t = TrelloMember.fullName member))
  /\ (length (mapMemberIds board vm ids) <= length ids)%nat
  /\ (forall id, (forall member, In member (Board.members board) ->
                                 TrelloMember.id member <> id) ->
                 mapMemberId board vm id = None).
Proof.
  split; [|split].
  - intros login Hin. unfold mapMemberIds in Hin.
    apply list_elem_of_In, list_elem_of_omap in Hin as (id & Hid & Hmap).
    apply list_elem_of_In in Hid.
    apply mapMemberId_Some in Hmap as (member & t & H1 & H2 & H3 & H4).
    now exists id, member, t.
  - apply omap_length_le.
  - intros id Hnone. unfold mapMemberId.
    destruct (find _ (Board.members board)) as [member|] eqn:Hmember; [|reflexivity].
    apply find_some in Hmember as [Hin Hid]. apply bool_decide_eq_true in Hid.
    now destruct (Hnone member Hin).
Qed.

Lemma assignees_are_verified_members_witness :
  exists id member t,
    In id ["M1"; "M404"]
    /\ In member (Board.members Ex.board)
    /\ TrelloMember.id member = id
    /\ In (verified t "alice-gh") [verified "alice" "alice-gh"; unverified "bob" "bob-gh"]
    /\ (t = TrelloMember.id member \/ t = TrelloMember.username member
        \/ t = TrelloMember.fullName member).
Proof.
  apply (proj1 (assignees_are_verified_members Ex.board
                  [verified "alice" "alice-gh"; unverified "bob" "bob-gh"]
                  ["M1"; "M404"]) "alice-gh").
  vm_compute. now left.
Defined.

(** X7. Every label name put on an issue is the target name of an entry of
    [mappedLabels]: either an entry for a source label whose name is one of
    the card's label names, or the list-level entry of the card's list.  Each
    label of the card gives at most one name and the list gives at most one,
    the last. *)
Theorem card_labels_spec (mappedLabels : list Label) (card : Card.t) :
  (forall name, In name (getLabelsForCard mappedLabels card) ->
     exists l,
       In l mappedLabels
       /\ label_github_name l = Some name
       /\ ((is_listMapped l = false
            /\ exists tl, In tl (Card.labels card)
                          /\ label_trello_name_is (TrelloLabel.name tl) l = true)
           \/ (is_listMapped l = true /\ label_list_id_is (Card.idList card) l = true)))
  /\ (length (getLabelsForCard mappedLabels card) <= length (Card.labels card) + 1)%nat.
Proof.
  unfold getLabelsForCard.
  set (fromLabels := omap _ (map TrelloLabel.name (Card.labels card))).
  assert (HfromLabels : forall name, In name fromLabels ->
            exists l, In l mappedLabels /\ label_github_name l = Some name
                      /\ is_listMapped l = false
                      /\ exists tl, In tl (Card.labels card)
                                    /\ label_trello_name_is (TrelloLabel.name tl) l = true).
  { intros name Hin. unfold fromLabels in Hin.
    apply list_elem_of_In, list_elem_of_omap in Hin as (trelloName & Htl & Hfound).
    apply list_elem_of_In, in_map_iff in Htl as (tl & <- & Htl).
    destruct (find _ mappedLabels) as [found|] eqn:Hfind; [|discriminate].
    apply find_some in Hfind as [Hin Hcond]. apply andb_true_iff in Hcond as [Hnl Hname].
    apply negb_true_iff in Hnl. exists found. repeat split; try assumption.
    now exists tl. }
  assert (Hlen : (length fromLabels <= length (Card.labels card))%nat).
  { unfold fromLabels. etransitivity; [apply omap_length_le|]. now rewrite length_map. }
  destruct (find _ mappedLabels) as [listLabel|] eqn:Hlist.
  - apply find_some in Hlist as [Hin Hcond]. apply andb_true_iff in Hcond as [Hl Hid].
    destruct (label_github_name listLabel) as [lname|] eqn:Hlname.
    + split.
      * intros name [Hname|Hname]%in_app_or.
        -- destruct (HfromLabels name Hname) as (l & H1 & H2 & H3 & H4).
           exists l. repeat split; try assumption. now left.
        -- destruct Hname as [<-|[]]. exists listLabel. repeat split; try assumption.
           now right.
      * rewrite length_app. cbn. lia.
    + split; [|lia]. intros name Hname.
      destruct (HfromLabels name Hname) as (l & H1 & H2 & H3 & H4).
      exists l. repeat split; try assumption. now left.
  - split; [|lia]. intros name Hname.
    destruct (HfromLabels name Hname) as (l & H1 & H2 & H3 & H4).
    exists l. repeat split; try assumption. now left.
Qed.

Lemma card_labels_spec_witness :
  exists l,
    In l [mapped Ex.bug Ex.gh_bug; listMapped (GhLabel.mk 2 "todo" "fff") Ex.todo]
    /\ label_github_name l = Some "todo"
    /\ ((is_listMapped l = false
         /\ exists tl, In tl (Card.labels Ex.card1)
                       /\ label_trello_name_is (TrelloLabel.name tl) l = true)
        \/ (is_listMapped l = true /\ label_list_id_is (Card.idList Ex.card1) l = true)).
Proof.
  apply (proj1 (card_labels_spec
                  [mapped Ex.bug Ex.gh_bug; listMapped (GhLabel.mk 2 "todo" "fff") Ex.todo]
                  Ex.card1) "todo").
  vm_compute. right. now left.
Defined.

(** ** The checklist section and the other shapes of the issue body *)

Lemma omap_nil_iff {A B} (f : A -> option B) (l : list A) :
  omap f l = [] <-> forall x, In x l -> f x = None.
Proof.
  induction l as [|x l IH]; cbn [omap list_omap].
  - split; [intros _ ? [] | reflexivity].
  - destruct (f x) eqn:Hx.
    + split; [discriminate|]. intros Hall. specialize (Hall x (or_introl eq_refl)). congruence.
    + rewrite IH. split.
      * intros Hall y [<-|Hy]; [exact Hx | now apply Hall].
      * intros Hall y Hy. apply Hall. now right.
Qed.

(** X8. A card has no checklist section exactly when none of its checklist
    ids is the id of a checklist of the board; ids that are not found are
    dropped without an error. *)
Theorem no_checklist_section_iff (board : Board.t) (card : Card.t) :
  getChecklistContentForCard board card = None
  <-> forall id, In id (Card.idChecklists card) ->
        forall checklist, In checklist (Board.checklists board) ->
                          Checklist.id checklist <> id.
Proof.
  unfold getChecklistContentForCard.
  assert (Hnil : linkedChecklists board card = []
                 <-> forall id, In id (Card.idChecklists card) ->
                       forall checklist, In checklist (Board.checklists board) ->
                                         Checklist.id checklist <> id).
  { unfold linkedChecklists. rewrite omap_nil_iff. split.
    - intros Hall id Hid checklist Hin Heq.
      pose proof (find_none _ _ (Hall id Hid) checklist Hin) as Hf. cbn in Hf.
      apply bool_decide_eq_false in Hf. contradiction.
    - intros Hall id Hid.
      destruct (find _ (Board.checklists board)) as [checklist|] eqn:Hfind; [|reflexivity].
      apply find_some in Hfind as [Hin Heq]. apply bool_decide_eq_true in Heq.
      now destruct (Hall id Hid checklist Hin). }
  rewrite <- Hnil.
  destruct (linkedChecklists board card); cbn; split; congruence.
Qed.

Lemma checklist_section_nonempty (board : Board.t) (card : Card.t) (section : string) :
  getChecklistContentForCard board card = Some section -> nonempty section = true.
Proof.
  intros Hsection.
  destruct (linkedChecklists board card) as [|c cs] eqn:Hlinked.
  - unfold getChecklistContentForCard in Hsection. now rewrite Hlinked in Hsection.
  - destruct (checklist_section_shape board card) as [rest Hshape]; [congruence|].
    rewrite Hshape in Hsection. now injection Hsection as <-.
Qed.

(** X9. With a description, the issue body is the description, a separator,
    the checklist section and a second separator when the card has one, then
    the provenance line and the attachment lines.  With neither description
    nor checklist section, the body is the provenance line and the attachment
    lines alone, with no separator. *)
Theorem issue_body_cases (board : Board.t) (card : Card.t) :
  (Card.desc card <> EmptyString ->
   forall section, getChecklistContentForCard board card = Some section ->
     getDescriptionForCard board card
     = Card.desc card +:+ separator +:+ section +:+ separator
       +:+ provenance card +:+ attachmentLines card)
  /\ (Card.desc card <> EmptyString ->
      getChecklistContentForCard board card = None ->
      getDescriptionForCard board card
      = Card.desc card +:+ separator +:+ provenance card +:+ attachmentLines card)
  /\ (Card.desc card = EmptyString ->
      getChecklistContentForCard board card = None ->
      getDescriptionForCard board card = provenance card +:+ attachmentLines card).
Proof.
  unfold getDescriptionForCard. split; [|split].
  - intros Hdesc section Hsection.
    rewrite Hsection. cbn [truthy_str default].
    rewrite (checklist_section_nonempty board card section Hsection).
    unfold nonempty at 1 2 3. rewrite bool_decide_false by exact Hdesc. cbn [negb orb].
    change (EmptyString +:+ ?x) with x. now rewrite !append_assoc.
  - intros Hdesc Hnone. rewrite Hnone. cbn [truthy_str].
    unfold nonempty. rewrite bool_decide_false by exact Hdesc. cbn [negb orb].
    change (EmptyString +:+ ?x) with x. now rewrite !append_assoc.
  - intros Hdesc Hnone. rewrite Hnone, Hdesc. cbn [truthy_str].
    assert (Hempty : nonempty EmptyString = false) by reflexivity.
    rewrite Hempty. cbn [orb]. reflexivity.
Qed.

Lemma issue_body_cases_witness :
  getDescriptionForCard Ex.board Ex.card2
  = "Details" +:+ separator
    +:+ ("> Migrated from [Trello Card](https://trello.example/c/C2)" +:+ nl).
Proof.
  rewrite (proj1 (proj2 (issue_body_cases Ex.board Ex.card2))).
  - reflexivity.
  - discriminate.
  - reflexivity.
Defined.

(** ** Milestone and list-label rules *)

Lemma milestone_matches_hit (ref : Ref) (m : MilestoneInfo.t) :
  milestone_matches ref m = true <-> milestone_hit ref m.
Proof.
  unfold milestone_matches, milestone_hit. destruct ref as [s|n]; simpl.
  - rewrite bool_decide_eq_true. split.
    + intros <-. now right; right.
    + intros [[=]|[[=]|[= ->]]]. reflexivity.
  - rewrite orb_false_r, orb_true_iff, !bool_decide_eq_true. split.
    + intros [<-|<-]; [now left | now right; left].
    + intros [[= ->]|[[= ->]|[=]]]; [now left | now right].
Qed.

Lemma statusBlock_keeps_milestones (projectInfo : option ProjectInfo.t) (rule : ListRule.t)
    (tl : TrelloList.t) (st : Resolution.t) :
  Resolution.validMilestones (flow_state (statusBlock projectInfo rule tl st))
  = Resolution.validMilestones st
  /\ Resolution.missingMilestones (flow_state (statusBlock projectInfo rule tl st))
     = Resolution.missingMilestones st
  /\ Resolution.labels (flow_state (statusBlock projectInfo rule tl st))
     = Resolution.labels st.
Proof.
  unfold statusBlock.
  repeat match goal with
         | |- context [match ?x with _ => _ end] => destruct x; cbn
         end; now repeat split.
Qed.

(** X10. For a list rule whose list reference names a source list, whose
    label rule (if any) resolves, and which has a truthy milestone reference:
    the first target milestone whose id or number equals an integer
    reference, or whose title equals a string reference, is recorded in
    [validMilestones] under the list's id; when there is none, the reference
    is appended to [missingMilestones] and the status rule of the list is not
    evaluated. *)
Theorem milestone_rule_resolution
    (gl : list GhLabel.t) (gm : list MilestoneInfo.t) (projectInfo : option ProjectInfo.t)
    (lists : list TrelloList.t) (st : Resolution.t) (rule : ListRule.t)
    (trelloList : TrelloList.t) (ref : Ref) :
  find (list_matches (ListRule.list rule)) lists = Some trelloList ->
  label_rule_passes gl rule ->
  ListRule.milestone rule = Some ref ->
  truthy ref = true ->
  let st' := resolveListRule gl gm projectInfo lists st rule in
  (forall m, first_such (milestone_hit ref) gm m ->
     Resolution.validMilestones st'
     = <[TrelloList.id trelloList := m]> (Resolution.validMilestones st)
     /\ Resolution.missingMilestones st' = Resolution.missingMilestones st)
  /\ ((forall m, In m gm -> ~ milestone_hit ref m) ->
      Resolution.missingMilestones st' = Resolution.missingMilestones st ++ [ref]
      /\ Resolution.validMilestones st' = Resolution.validMilestones st
      /\ same_status_fields st st').
Proof.
  intros Hlist Hlabel Hmilestone Htruthy st'.
  assert (Hlb : exists st1,
             labelBlock gl rule trelloList st = Next st1
             /\ Resolution.validMilestones st1 = Resolution.validMilestones st
             /\ Resolution.missingMilestones st1 = Resolution.missingMilestones st
             /\ same_status_fields st st1).
  { unfold label_rule_passes in Hlabel. unfold labelBlock, same_status_fields.
    destruct (ListRule.label rule) as [lref|]; [|now exists st].
    destruct (truthy lref); [|now exists st].
    destruct (find (label_matches lref) gl) as [g|]; [|now destruct Hlabel].
    eexists. split; [reflexivity | now cbn]. }
  destruct Hlb as (st1 & Hst1 & Hv1 & Hm1 & Hs1).
  unfold st', resolveListRule. rewrite Hlist, Hst1. cbn [flow_bind].
  unfold milestoneBlock. rewrite Hmilestone, Htruthy.
  split.
  - intros m Hfirst.
    rewrite (find_first_such _ _ (milestone_matches_hit ref) gm m Hfirst). cbn [flow_bind].
    destruct (statusBlock_keeps_milestones projectInfo rule trelloList
                (Resolution.set_validMilestone (TrelloList.id trelloList) m st1))
      as (Hv & Hm & _).
    rewrite Hv, Hm. cbn. now rewrite Hv1, Hm1.
  - intros Hmiss.
    rewrite (find_None_none _ _ (milestone_matches_hit ref) gm Hmiss).
    cbn [flow_bind flow_state]. unfold same_status_fields in *. cbn.
    rewrite Hv1, Hm1. tauto.
Qed.

Lemma milestone_rule_resolution_witness :
  Resolution.validMilestones
    (resolveListRule [Ex.gh_bug] [Ex.v1] None [Ex.todo; Ex.done_] Resolution.init
       (ListRule.mk "Todo" None false None (Some (RefInt 1))))
  = <["L1" := Ex.v1]> ∅
  /\ Resolution.missingMilestones
       (resolveListRule [Ex.gh_bug] [Ex.v1] None [Ex.todo; Ex.done_] Resolution.init
          (ListRule.mk "L2" None false None (Some (RefStr "v2"))))
     = [RefStr "v2"].
Proof.
  split.
  - apply (milestone_rule_resolution [Ex.gh_bug] [Ex.v1] None [Ex.todo; Ex.done_]
             Resolution.init (ListRule.mk "Todo" None false None (Some (RefInt 1)))
             Ex.todo (RefInt 1)); try reflexivity.
    exists [], []. split; [reflexivity|]. split; [right; now left | intros ? []].
  - apply (milestone_rule_resolution [Ex.gh_bug] [Ex.v1] None [Ex.todo; Ex.done_]
             Resolution.init (ListRule.mk "L2" None false None (Some (RefStr "v2")))
             Ex.done_ (RefStr "v2")); try reflexivity.
    intros m [<-|[]] [H|[H|H]]; discriminate H.
Defined.

Lemma later_blocks_keep_labels (gm : list MilestoneInfo.t)
    (projectInfo : option ProjectInfo.t) (rule : ListRule.t) (tl : TrelloList.t)
    (st : Resolution.t) :
  Resolution.labels
    (flow_state (flow_bind (milestoneBlock gm rule tl st)
                   (fun st2 => statusBlock projectInfo rule tl st2)))
  = Resolution.labels st.
Proof.
  unfold milestoneBlock.
  destruct (ListRule.milestone rule) as [ref|];
    [destruct (truthy ref); [destruct (find _ gm)|]|]; cbn [flow_bind flow_state];
    try reflexivity;
    now rewrite (proj2 (proj2 (statusBlock_keeps_milestones projectInfo rule tl _))).
Qed.

(** X11. For a list rule whose list reference names a source list and which
    has a truthy label reference: when a target label is hit (by integer id
    or by name), one [listMapped] entry with the first such label and the
    list is appended to the labels; when none is hit, one [missingList]
    entry is appended, which counts as a missing label and makes any plan
    with it invalid. *)
Theorem list_label_rule_resolution
    (gl : list GhLabel.t) (gm : list MilestoneInfo.t) (projectInfo : option ProjectInfo.t)
    (lists : list TrelloList.t) (st : Resolution.t) (rule : ListRule.t)
    (trelloList : TrelloList.t) (ref : Ref) :
  find (list_matches (ListRule.list rule)) lists = Some trelloList ->
  ListRule.label rule = Some ref ->
  truthy ref = true ->
  let st' := resolveListRule gl gm projectInfo lists st rule in
  (forall g, first_such (label_hit ref) gl g ->
     Resolution.labels st' = Resolution.labels st ++ [listMapped g trelloList])
  /\ ((forall g, In g gl -> ~ label_hit ref g) ->
      Resolution.labels st' = Resolution.labels st ++ [missingList ref trelloList]
      /\ forall p, Plan.resolution p = st' -> planInvalid p = true).
Proof.
  intros Hlist Hlabel Htruthy st'. unfold st', resolveListRule, labelBlock.
  rewrite Hlist, Hlabel, Htruthy. split.
  - intros g Hfirst. rewrite (find_first_such _ _ (label_matches_hit ref) gl g Hfirst).
    cbn [flow_bind]. now rewrite later_blocks_keep_labels.
  - intros Hmiss. rewrite (find_None_none _ _ (label_matches_hit ref) gl Hmiss).
    cbn [flow_bind flow_state]. split; [reflexivity|].
    intros p Hp. unfold planInvalid, Plan.missingLabels, Plan.labels. rewrite Hp.
    cbn [Resolution.push_label Resolution.labels].
    rewrite List.filter_app. cbn [List.filter].
    assert (Hne : nonempty_list
                    (List.filter
                       (fun l => match l with
                                 | missing _ _ | missingList _ _ => true
                                 | _ => false
                                 end) (Resolution.labels st)
                     ++ [missingList ref trelloList]) = true).
    { apply nonempty_list_true. intros Heq. now apply app_eq_nil in Heq as [_ [=]]. }
    now rewrite Hne.
Qed.

Lemma list_label_rule_resolution_witness :
  Resolution.labels
    (resolveListRule [Ex.gh_bug] [Ex.v1] None [Ex.todo; Ex.done_] Resolution.init
       (ListRule.mk "Todo" None false (Some (RefInt 1)) None))
  = [listMapped Ex.gh_bug Ex.todo].
Proof.
  apply (list_label_rule_resolution [Ex.gh_bug] [Ex.v1] None [Ex.todo; Ex.done_]
           Resolution.init (ListRule.mk "Todo" None false (Some (RefInt 1)) None)
           Ex.todo (RefInt 1)); try reflexivity.
  exists [], []. split; [reflexivity|]. split; [now left | intros ? []].
Defined.

(** ** What the resolved maps hold *)

Section ResolvedSound.
Variable gl : list GhLabel.t.
Variable gm : list MilestoneInfo.t.
Variable projectInfo : option ProjectInfo.t.
Variable lists : list TrelloList.t.

Abbreviation sound := (resolution_sound lists gm projectInfo).

Lemma flow_bind_preserves (P : Resolution.t -> Prop) (f : Flow)
    (k : Resolution.t -> Flow) :
  P (flow_state f) -> (forall s, P s -> P (flow_state (k s))) ->
  P (flow_state (flow_bind f k)).
Proof. destruct f; cbn; auto. Qed.

Lemma labelBlock_sound (rule : ListRule.t) (tl : TrelloList.t) (st : Resolution.t) :
  sound st -> sound (flow_state (labelBlock gl rule tl st)).
Proof.
  unfold labelBlock.
  destruct (ListRule.label rule) as [ref|];
    [destruct (truthy ref); [destruct (find _ gl)|]|]; now cbn.
Qed.

Lemma milestoneBlock_sound (rule : ListRule.t) (tl : TrelloList.t) (st : Resolution.t) :
  In tl lists -> sound st -> sound (flow_state (milestoneBlock gm rule tl st)).
Proof.
  intros Htl [Hms Hsf]. unfold milestoneBlock.
  destruct (ListRule.milestone rule) as [ref|]; [|now split].
  destruct (truthy ref); [|now split].
  destruct (find (milestone_matches ref) gm) as [m|] eqn:Hfind; [|now split].
  apply find_some in Hfind as [Hm _]. split; [|exact Hsf].
  intros k m' Hlookup. cbn in Hlookup.
  apply lookup_insert_Some in Hlookup as [[<- <-]|[_ Hlookup]]; [|now apply Hms].
  split; [now exists tl | exact Hm].
Qed.

Lemma statusBlock_sound (rule : ListRule.t) (tl : TrelloList.t) (st : Resolution.t) :
  In tl lists -> sound st -> sound (flow_state (statusBlock projectInfo rule tl st)).
Proof.
  intros Htl [Hms Hsf]. unfold statusBlock.
  destruct (bool_decide (is_Some projectInfo) && truthy_opt (ListRule.status rule));
    [|now split].
  destruct projectInfo as [info|] eqn:Hinfo; [|now split].
  destruct (ListRule.status rule) as [ref|]; [|now split].
  destruct (find (status_matches ref) (ProjectInfo.statusFieldOptions info)) as [o|] eqn:Hfind.
  - apply find_some in Hfind as [Ho _]. split; [exact Hms|].
    intros k o' Hlookup. cbn in Hlookup.
    apply lookup_insert_Some in Hlookup as [[<- <-]|[_ Hlookup]]; [|now apply Hsf].
    split; [now exists tl | now exists info].
  - destruct (ListRule.create rule && isString ref); now split.
Qed.

Lemma resolveListRule_sound (st : Resolution.t) (rule : ListRule.t) :
  sound st -> sound (resolveListRule gl gm projectInfo lists st rule).
Proof.
  intros Hsound. unfold resolveListRule.
  destruct (find (list_matches (ListRule.list rule)) lists) as [tl|] eqn:Hfind;
    [|exact Hsound].
  apply find_some in Hfind as [Htl _].
  apply flow_bind_preserves; [now apply labelBlock_sound|].
  intros s1 Hs1. apply flow_bind_preserves; [now apply milestoneBlock_sound|].
  intros s2 Hs2. now apply statusBlock_sound.
Qed.

Lemma resolveListRules_sound (rules : list ListRule.t) (st : Resolution.t) :
  sound st -> sound (resolveListRules gl gm projectInfo lists rules st).
Proof.
  unfold resolveListRules. revert st.
  induction rules as [|rule rules IH]; intros st Hsound; [exact Hsound|].
  cbn [fold_left]. now apply IH, resolveListRule_sound.
Qed.
End ResolvedSound.

(** X12. In every plan, a milestone is recorded only under the id of a list
    of the board and is a milestone of the target, and a status is recorded
    only under the id of a list of the board and is an option of the status
    field of the configured project; without a project no status is
    recorded. *)
Theorem resolved_maps_sound (opts : Options.t) (trello : Board.t) (map : MapFormat.t)
    (tgt : Target.t) (plan : Plan.t) :
  makePlan opts trello map tgt = Some plan ->
  (forall k m, Resolution.validMilestones (Plan.resolution plan) !! k = Some m ->
     (exists l, In l (Board.lists trello) /\ TrelloList.id l = k)
     /\ In m (Target.githubMilestones tgt))
  /\ (forall k o, Resolution.validStatusFields (Plan.resolution plan) !! k = Some o ->
        (exists l, In l (Board.lists trello) /\ TrelloList.id l = k)
        /\ exists info, Plan.projectInfo plan = Some info
                        /\ In o (ProjectInfo.statusFieldOptions info))
  /\ (Plan.projectInfo plan = None ->
      Resolution.validStatusFields (Plan.resolution plan) = ∅).
Proof.
  intros (users & projectInfo & _ & _ & ->)%makePlan_Some.
  cbn [Plan.resolution Plan.projectInfo Resolution.validMilestones
         Resolution.validStatusFields].
  destruct (resolveListRules_sound (Target.githubLabels tgt) (Target.githubMilestones tgt)
              projectInfo (Board.lists trello) (MapFormat.lists map)
              (Resolution.mk
                 (resolveLabels (MapFormat.labels map) (Target.githubLabels tgt)
                    (Board.labels trello))
                 [] ∅ [] false ∅ [] [])) as [Hms Hsf].
  { split; intros k x Hlookup; cbn in Hlookup; now rewrite lookup_empty in Hlookup. }
  split; [exact Hms|]. split; [exact Hsf|].
  intros ->. apply map_eq. intros k. rewrite lookup_empty.
  destruct (_ !! k) as [o|] eqn:Hlookup; [|reflexivity].
  apply Hsf in Hlookup as (_ & info & [=] & _).
Qed.

Lemma resolved_maps_sound_witness :
  exists plan,
    makePlan Ex.no_options Ex.board (Ex.mapping None [Ex.rule_todo]) (Ex.target []) = Some plan
    /\ Resolution.validStatusFields (Plan.resolution plan) = ∅.
Proof.
  eexists. split; [vm_compute; reflexivity|].
  apply (resolved_maps_sound Ex.no_options Ex.board (Ex.mapping None [Ex.rule_todo])
           (Ex.target []) _ ltac:(vm_compute; reflexivity)).
  reflexivity.
Defined.

(** ** Traces of the execution phase *)

Lemma emits_ret {A} (P : Call -> Prop) (a : A) : emits P (ret a).
Proof. intros t. exists []. cbn. now rewrite app_nil_r. Qed.

Lemma emits_bind {A B} (P : Call -> Prop) (m : Exec A) (k : A -> Exec B) :
  emits P m -> (forall a, emits P (k a)) -> emits P (bind m k).
Proof.
  intros Hm Hk t. unfold bind. destruct (Hm t) as (calls & Ht & HP).
  destruct (m t) as [t' [a|]]; cbn [fst] in Ht; subst t'.
  - destruct (Hk a (t ++ calls)) as (calls' & Ht' & HP').
    exists (calls ++ calls'). rewrite Ht', app_assoc. split; [reflexivity|].
    now apply Forall_app.
  - now exists calls.
Qed.

Lemma emits_forM_ {A} (P : Call -> Prop) (l : list A) (body : A -> Exec unit) :
  (forall x, In x l -> emits P (body x)) -> emits P (forM_ l body).
Proof.
  induction l as [|x l IH]; intros Hbody; cbn [forM_]; [apply emits_ret|].
  apply emits_bind; [apply Hbody; now left|].
  intros _. apply IH. intros y Hy. apply Hbody. now right.
Qed.

Lemma emits_one {A} (P : Call -> Prop) (m : Exec A) (c : Call) :
  P c -> (forall t, fst (m t) = t ++ [c]) -> emits P m.
Proof. intros Hc Hm t. exists [c]. split; [apply Hm | now constructor]. Qed.

Lemma emits_createLabels (P : Call -> Prop) (tgt : Target.t) (plan : Plan.t) :
  (forall name color, P (CreateLabel name color)) -> emits P (createLabels tgt plan).
Proof.
  intros HP. unfold createLabels. apply emits_forM_. intros label _.
  destruct label; try apply emits_ret.
  apply (emits_one P _ (CreateLabel github_name
                          (option_map (fun c => strip_hash (trim c)) github_color)));
    [apply HP|].
  intros t. unfold request_createLabel. now destruct (Target.createLabel _ _ _ _).
Qed.

Lemma emits_importCard (P : Call -> Prop) (tgt : Target.t) (tz : Z -> string)
    (trello : Board.t) (plan : Plan.t) (card : Card.t) :
  (forall title body labels assignees milestone,
     P (CreateIssue title body labels assignees milestone)) ->
  (forall number body, P (CreateComment number body)) ->
  (forall info, Plan.projectInfo plan = Some info -> forall a b, P (AddProjectItem a b)) ->
  (forall info, Plan.projectInfo plan = Some info ->
     forall a b c d, P (UpdateItemStatus a b c d)) ->
  emits P (importCard tgt tz trello plan card).
Proof.
  intros Hissue Hcomment Hadd Hupdate. unfold importCard.
  apply emits_bind.
  { eapply emits_one; [|reflexivity]. apply Hissue. }
  intros issue. apply emits_bind.
  { apply emits_forM_. intros comment _.
    eapply emits_one; [|reflexivity]. apply Hcomment. }
  intros _. destruct (Plan.projectInfo plan) as [info|] eqn:Hinfo; [|apply emits_ret].
  apply emits_bind.
  { eapply emits_one; [|reflexivity]. now apply (Hadd info). }
  intros itemId. destruct (_ !! _); [|apply emits_ret].
  eapply emits_one; [|reflexivity]. now apply (Hupdate info).
Qed.

Lemma emits_syncExistingItems (P : Call -> Prop) (tgt : Target.t) (plan : Plan.t) :
  (forall info, Plan.projectInfo plan = Some info ->
     forall a b c d, P (UpdateItemStatus a b c d)) ->
  emits P (syncExistingItems tgt plan).
Proof.
  intros HP. unfold syncExistingItems.
  destruct (Plan.projectInfo plan) as [info|]; [|apply emits_ret].
  destruct (0 <? size _)%nat; [|apply emits_ret].
  destruct (nonempty_list _); [|apply emits_ret].
  apply emits_forM_. intros item _. destruct (syncItem _ _ item); [|apply emits_ret].
  eapply emits_one; [|reflexivity]. now apply (HP info).
Qed.

Lemma getProjectInfo_none (map : MapFormat.t) (tgt : Target.t) :
  MapFormat.project map = None \/ MapFormat.project map = Some 0 ->
  getProjectInfo map tgt = Some None.
Proof. unfold getProjectInfo. now intros [-> | ->]. Qed.

(** X13. Without a project number (or with the number 0, which the program
    reads as none), a run never touches a project board: no call of its trace
    adds an item to a project or sets an item's status, whatever the target
    answers. *)
Theorem no_project_no_project_calls (tz : Z -> string) (opts : Options.t)
    (answers : Answers.t) (trello : Board.t) (map : MapFormat.t) (tgt : Target.t) :
  MapFormat.project map = None \/ MapFormat.project map = Some 0 ->
  forall c, In c (Result.trace (run tz opts answers trello map tgt)) -> project_call c = false.
Proof.
  intros Hproject c Hin. unfold run in Hin.
  destruct (makePlan opts trello map tgt) as [plan|] eqn:Hplan; [|destruct Hin].
  assert (Hnone : Plan.projectInfo plan = None).
  { pose proof Hplan as (users & projectInfo & _ & Hinfo & ->)%makePlan_Some.
    rewrite (getProjectInfo_none map tgt Hproject) in Hinfo. now injection Hinfo as <-. }
  destruct (planInvalid plan); [destruct Hin|].
  destruct (_ && _); [destruct Hin|].
  destruct (_ && _); [destruct Hin|].
  assert (Hemits : emits (fun c => project_call c = false) (execute tgt tz trello plan)).
  { unfold execute. apply emits_bind; [now apply emits_createLabels|].
    intros _. apply emits_bind.
    - apply emits_syncExistingItems. intros info Hinfo. congruence.
    - intros _. unfold importCards. apply emits_forM_. intros card _.
      apply emits_importCard; try reflexivity; intros info Hinfo; congruence. }
  destruct (Hemits []) as (calls & Hcalls & HP). cbn [app] in Hcalls.
  destruct (execute tgt tz trello plan []) as [trace [u|]]; cbn [fst] in Hcalls; subst trace;
    cbn [Result.trace] in Hin; now apply (proj1 (List.Forall_forall _ _) HP).
Qed.

Lemma no_project_no_project_calls_witness :
  project_call
    (CreateComment 100
       (renderComment Ex.board [verified "alice" "alice-gh"] Ex.date_string Ex.comment1))
  = false.
Proof.
  apply (no_project_no_project_calls Ex.date_string Ex.no_options Ex.yes Ex.board
           (Ex.mapping None [Ex.rule_todo]) (Ex.target [])).
  - now left.
  - vm_compute. right. now left.
Defined.

Lemma issue_titles_app (t1 t2 : Trace) :
  issue_titles (t1 ++ t2) = issue_titles t1 ++ issue_titles t2.
Proof. apply omap_app. Qed.

Lemma creates_ret {A} (a : A) : creates [] (ret a).
Proof. intros t. exists []. cbn. rewrite app_nil_r. now repeat split. Qed.

Lemma creates_bind {A B} (titles1 titles2 : list string) (m : Exec A) (k : A -> Exec B) :
  creates titles1 m -> (forall a, creates titles2 (k a)) ->
  creates (titles1 ++ titles2) (bind m k).
Proof.
  intros Hm Hk t. unfold bind. destruct (Hm t) as (calls & Ht & Hsome & Hprefix).
  destruct (m t) as [t' [a|]]; cbn [fst snd] in *; subst t'.
  - destruct (Hk a (t ++ calls)) as (calls' & Ht' & Hsome' & Hprefix').
    exists (calls ++ calls'). rewrite Ht', app_assoc, issue_titles_app.
    rewrite (Hsome ltac:(now eexists)).
    split; [reflexivity|]. split.
    + intros Hres. now rewrite (Hsome' Hres).
    + now apply prefix_app.
  - exists calls. split; [reflexivity|]. split.
    + now intros [? [=]].
    + now apply prefix_app_r.
Qed.

Lemma creates_silent {A} (m : Exec A) :
  emits (fun c => match c with CreateIssue _ _ _ _ _ => False | _ => True end) m ->
  creates [] m.
Proof.
  intros Hm t. destruct (Hm t) as (calls & Ht & HP). exists calls.
  assert (Hnone : issue_titles calls = []).
  { clear Ht. induction HP as [|c calls Hc HP IH]; [reflexivity|].
    destruct c; cbn in *; try exact IH. destruct Hc. }
  rewrite Hnone. now repeat split.
Qed.

Lemma creates_forM_ {A} (title : A -> string) (l : list A) (body : A -> Exec unit) :
  (forall x, creates [title x] (body x)) -> creates (map title l) (forM_ l body).
Proof.
  intros Hbody. induction l as [|x l IH]; cbn [forM_ map]; [apply creates_ret|].
  change (title x :: map title l) with ([title x] ++ map title l).
  apply creates_bind; [apply Hbody | intros _; exact IH].
Qed.

Lemma creates_importCard (tgt : Target.t) (tz : Z -> string) (trello : Board.t)
    (plan : Plan.t) (card : Card.t) :
  creates [Card.name card] (importCard tgt tz trello plan card).
Proof.
  unfold importCard.
  change [Card.name card] with ([Card.name card] ++ ([] ++ [])).
  apply creates_bind.
  { intros t. eexists [_]. cbn [fst request_createIssue].
    split; [reflexivity|]. split; [intros _; reflexivity | reflexivity]. }
  intros issue. apply creates_bind.
  { apply creates_silent, emits_forM_. intros comment _.
    eapply emits_one; [|reflexivity]. exact I. }
  intros _. apply creates_silent.
  destruct (Plan.projectInfo plan) as [info|]; [|apply emits_ret].
  apply emits_bind.
  { eapply emits_one; [|reflexivity]. exact I. }
  intros itemId. destruct (_ !! _); [|apply emits_ret].
  eapply emits_one; [|reflexivity]. exact I.
Qed.

Lemma creates_execute (tgt : Target.t) (tz : Z -> string) (trello : Board.t)
    (plan : Plan.t) :
  creates (map Card.name (Plan.cards plan)) (execute tgt tz trello plan).
Proof.
  unfold execute.
  change (map Card.name (Plan.cards plan))
    with ([] ++ ([] ++ map Card.name (Plan.cards plan))).
  apply creates_bind; [now apply creates_silent, emits_createLabels|].
  intros _. apply creates_bind; [now apply creates_silent, emits_syncExistingItems|].
  intros _. apply creates_forM_. intros card. apply creates_importCard.
Qed.

(** X14. A run creates issues for the cards of its plan only, one per card
    and in the order of the cards: the titles of the issues created are a
    prefix of the cards' names, whatever the target answers, and all of them
    when the run completes. *)
Theorem issues_follow_cards (tz : Z -> string) (opts : Options.t) (answers : Answers.t)
    (trello : Board.t) (map : MapFormat.t) (tgt : Target.t) (plan : Plan.t) :
  makePlan opts trello map tgt = Some plan ->
  issue_titles (Result.trace (run tz opts answers trello map tgt))
    `prefix_of` List.map Card.name (Plan.cards plan)
  /\ (Result.outcome (run tz opts answers trello map tgt) = Completed ->
      issue_titles (Result.trace (run tz opts answers trello map tgt))
      = List.map Card.name (Plan.cards plan)).
Proof.
  intros Hplan. unfold run. rewrite Hplan.
  destruct (planInvalid plan); [split; [apply prefix_nil | discriminate]|].
  destruct (_ && _); [split; [apply prefix_nil | discriminate]|].
  destruct (_ && _); [split; [apply prefix_nil | discriminate]|].
  destruct (creates_execute tgt tz trello plan []) as (calls & Ht & Hsome & Hprefix).
  cbn [app] in Ht.
  destruct (execute tgt tz trello plan []) as [trace [u|]]; cbn [fst snd] in *; subst trace;
    cbn [Result.trace Result.outcome].
  - split; [exact Hprefix|]. intros _. apply Hsome. now eexists.
  - split; [exact Hprefix | discriminate].
Qed.

Lemma issues_follow_cards_witness :
  issue_titles
    (Result.trace (run Ex.date_string Ex.no_options Ex.yes Ex.board
                     (Ex.mapping (Some 3) [Ex.rule_todo]) (Ex.target [Ex.nodes])))
  = ["Fix bug"; "Add feature"].
Proof.
  destruct (makePlan Ex.no_options Ex.board (Ex.mapping (Some 3) [Ex.rule_todo])
              (Ex.target [Ex.nodes])) as [plan|] eqn:Hplan;
    [|vm_compute in Hplan; discriminate].
  rewrite (proj2 (issues_follow_cards Ex.date_string Ex.no_options Ex.yes Ex.board
                    (Ex.mapping (Some 3) [Ex.rule_todo]) (Ex.target [Ex.nodes]) plan Hplan)).
  - vm_compute in Hplan. injection Hplan as <-. reflexivity.
  - vm_compute. reflexivity.
Defined.

Lemma comments_posted (tgt : Target.t) (number : Z) (comments : list string) (t : Trace) :
  (forall t' n body, Target.createComment tgt t' n body = true) ->
  forM_ comments (request_createComment tgt number) t
  = (t ++ map (CreateComment number) comments, Some tt).
Proof.
  intros Hok. revert t. induction comments as [|c comments IH]; intros t.
  - cbn. now rewrite app_nil_r.
  - cbn [forM_ map]. unfold bind, request_createComment at 1.
    rewrite Hok, IH, <- app_assoc. reflexivity.
Qed.

(** X15. When the target accepts the calls, importing a card issues, in this
    order: the issue creation; one comment per rendered comment, in order,
    under the number the target gave the issue; with a project, the addition
    of the issue's node to the project and, when the card's list has a
    resolved status, the status update of the item the target returned. *)
Theorem card_calls_in_order (tgt : Target.t) (tz : Z -> string) (trello : Board.t)
    (plan : Plan.t) (card : Card.t) (t : Trace) (number : Z) (node item : string) :
  (forall title body labels assignees milestone,
     Target.createIssue tgt t title body labels assignees milestone = Some (number, node)) ->
  (forall t' n body, Target.createComment tgt t' n body = true) ->
  (forall t' p c, Target.addProjectItem tgt t' p c = Some item) ->
  (forall t' p i f o, Target.updateItemStatus tgt t' p i f o = true) ->
  importCard tgt tz trello plan card t
  = (t ++ cardCalls tz trello plan card number node item, Some tt).
Proof.
  intros Hissue Hcomment Hadd Hupdate.
  unfold importCard, cardCalls, bind. unfold request_createIssue at 1.
  rewrite Hissue. cbn [fst snd]. rewrite (comments_posted _ _ _ _ Hcomment).
  destruct (Plan.projectInfo plan) as [info|].
  - unfold addIssueToProject at 1. rewrite Hadd.
    destruct (_ !! Card.idList card) as [status|].
    + unfold setIssueStatus. rewrite Hupdate. now rewrite <- !app_assoc.
    + cbn [ret]. now rewrite <- !app_assoc.
  - cbn [ret]. now rewrite app_nil_r, <- !app_assoc.
Qed.

Lemma card_calls_in_order_witness :
  importCard (Ex.target []) Ex.date_string Ex.board Ex.sync_plan Ex.card2 []
  = ([CreateIssue "Add feature"
        ("Details" +:+ separator
         +:+ ("> Migrated from [Trello Card](https://trello.example/c/C2)" +:+ nl))
        [] [] None;
      CreateComment 100 ("## @alice-gh • 2024-01-00" +:+ nl +:+ "elsewhere");
      AddProjectItem "PVT_1" "NODE";
      UpdateItemStatus "PVT_1" "ITEM" "F1" "o2"],
     Some tt).
Proof.
  rewrite (card_calls_in_order (Ex.target []) Ex.date_string Ex.board Ex.sync_plan Ex.card2
             [] 100 "NODE" "ITEM"); reflexivity.
Defined.

Lemma forM_abort {A} (pre post : list A) (x : A) (body : A -> Exec unit)
    (t t1 t2 : Trace) :
  forM_ pre body t = (t1, Some tt) ->
  body x t1 = (t2, None) ->
  forM_ (pre ++ x :: post) body t = (t2, None).
Proof.
  revert t. induction pre as [|y pre IH]; intros t; cbn [forM_ app].
  - intros [= <-] Hx. unfold bind. now rewrite Hx.
  - unfold bind. destruct (body y t) as [t' [[]|]]; [|discriminate].
    intros Hpre Hx. now apply IH.
Qed.

(** X16. A failing issue creation ends the import: the failed call is the
    last call of the trace, the run throws, and nothing is attempted for the
    card's comments, its project item, or any later card; what was created
    for earlier cards stays in the trace. *)
Theorem failed_issue_creation_aborts (tgt : Target.t) (tz : Z -> string)
    (trello : Board.t) (plan : Plan.t) (pre post : list Card.t) (card : Card.t)
    (t t1 : Trace) :
  Plan.cards plan = pre ++ card :: post ->
  forM_ pre (importCard tgt tz trello plan) t = (t1, Some tt) ->
  (forall body labels assignees milestone,
     Target.createIssue tgt t1 (Card.name card) body labels assignees milestone = None) ->
  exists body labels assignees milestone,
    importCards tgt tz trello plan t
    = (t1 ++ [CreateIssue (Card.name card) body labels assignees milestone], None).
Proof.
  intros Hcards Hpre Hfail. do 4 eexists. unfold importCards. rewrite Hcards.
  apply (forM_abort pre post card _ t t1); [exact Hpre|].
  unfold importCard, bind. unfold request_createIssue at 1. now rewrite Hfail.
Qed.

Lemma failed_issue_creation_aborts_witness :
  exists body labels assignees milestone t1,
    importCards Ex2.target_refuses_second Ex.date_string Ex.board Ex.sync_plan []
    = (t1 ++ [CreateIssue "Add feature" body labels assignees milestone], None)
    /\ length t1 = 6%nat.
Proof.
  destruct (forM_ [Ex.card1]
              (importCard Ex2.target_refuses_second Ex.date_string Ex.board Ex.sync_plan) [])
    as [t1 r] eqn:Hpre.
  assert (Hlen : length t1 = 6%nat /\ r = Some tt).
  { vm_compute in Hpre. injection Hpre as <- <-. now split. }
  destruct Hlen as [Hlen ->].
  destruct (failed_issue_creation_aborts Ex2.target_refuses_second Ex.date_string Ex.board
              Ex.sync_plan [Ex.card1] [] Ex.card2 [] t1 eq_refl Hpre)
    as (body & labels & assignees & milestone & Himport); [reflexivity|].
  now exists body, labels, assignees, milestone, t1.
Defined.

(** ** Creating labels *)

Lemma createLabels_from (tgt : Target.t) (labels : list Label) (t : Trace) :
  (forall t' name color, Target.createLabel tgt t' name color <> LabelFailed) ->
  forM_ labels (fun label =>
      match label with
      | toCreate _ name color =>
          request_createLabel tgt name (option_map (fun c => strip_hash (trim c)) color)
      | _ => ret tt
      end) t
  = (t ++ omap (fun label =>
                  match label with
                  | toCreate _ name color =>
                      Some (CreateLabel name
                              (option_map (fun c => strip_hash (trim c)) color))
                  | _ => None
                  end) labels,
     Some tt).
Proof.
  intros Hok. revert t. induction labels as [|label labels IH]; intros t.
  - cbn. now rewrite app_nil_r.
  - cbn [forM_ omap list_omap]. unfold bind.
    destruct label; cbn [ret]; try now rewrite IH.
    unfold request_createLabel at 1.
    pose proof (Hok t github_name
                  (option_map (fun c => strip_hash (trim c)) github_color)) as Hlabel.
    destruct (Target.createLabel _ _ _ _); [| |congruence];
      rewrite IH, <- app_assoc; reflexivity.
Qed.

(** X17. Label creation tolerates labels that exist already: as long as no
    creation fails with anything but status 422, one creation call is issued
    for every label to create, in order, with the colour trimmed and without
    its leading [#], and the run goes on. *)
Theorem label_creation_tolerates_existing (tgt : Target.t) (plan : Plan.t) (t : Trace) :
  (forall t' name color, Target.createLabel tgt t' name color <> LabelFailed) ->
  createLabels tgt plan t = (t ++ labelCalls plan, Some tt).
Proof. intros Hok. unfold createLabels, labelCalls. now apply createLabels_from. Qed.

Lemma label_creation_tolerates_existing_witness :
  createLabels Ex2.target_labels_exist Ex2.label_plan []
  = ([CreateLabel "defect" (Some "F00"); CreateLabel "chore" None], Some tt).
Proof.
  rewrite (label_creation_tolerates_existing Ex2.target_labels_exist Ex2.label_plan []).
  - reflexivity.
  - intros t' name color. discriminate.
Defined.

(** ** Colours *)

Lemma hex_digit_not_space (c : ascii) : is_hex_digit c = true -> is_space c = false.
Proof. destruct c as [[] [] [] [] [] [] [] []]; vm_compute; congruence. Qed.

Lemma trim_end_id (s : string) :
  forallb (fun c => negb (is_space c)) (list_ascii_of_string s) = true -> trim_end s = s.
Proof.
  induction s as [|c s IH]; [reflexivity|].
  cbn [list_ascii_of_string forallb trim_end]. intros [Hc Hs]%andb_true_iff.
  rewrite (IH Hs). apply negb_true_iff in Hc. rewrite Hc. now destruct s.
Qed.

Lemma hex_digits_no_space (s : string) :
  forallb is_hex_digit (list_ascii_of_string s) = true ->
  forallb (fun c => negb (is_space c)) (list_ascii_of_string s) = true.
Proof.
  intros H. apply forallb_forall. intros c Hc.
  apply negb_true_iff, hex_digit_not_space.
  now apply (proj1 (forallb_forall _ _) H).
Qed.

Lemma trim_hex_digits (s : string) : hex_digits s = true -> trim s = s.
Proof.
  unfold hex_digits. intros [_ Hhex]%andb_true_iff.
  pose proof (hex_digits_no_space s Hhex) as Hns. unfold trim.
  destruct s as [|c s]; [reflexivity|].
  cbn [trim_start]. cbn [list_ascii_of_string forallb] in Hns.
  pose proof Hns as [Hc _]%andb_true_iff. apply negb_true_iff in Hc. rewrite Hc.
  now apply trim_end_id.
Qed.

(** X18. For a colour the mapping schema accepts (an optional [#], then six
    or three hexadecimal digits), the colour sent with a label creation is
    the digits alone: six or three hexadecimal digits, without [#]. *)
Theorem label_color_is_bare_hex (color : string) :
  valid_color color = true ->
  hex_digits (strip_hash (trim color)) = true
  /\ (color = String "#"%char (strip_hash (trim color)) \/ color = strip_hash (trim color)).
Proof.
  unfold valid_color. destruct color as [|c s]; [discriminate|].
  destruct (bool_decide (c = "#"%char)) eqn:Hc.
  - apply bool_decide_eq_true in Hc. subst c. intros Hhex.
    assert (Htrim : trim (String "#"%char s) = String "#"%char s).
    { pose proof (trim_hex_digits s Hhex) as Hs. unfold trim in *.
      change (trim_start (String "#"%char s)) with (String "#"%char s).
      cbn [trim_end]. destruct s as [|d s]; [reflexivity|].
      assert (Hd : is_space d = false).
      { unfold hex_digits in Hhex. apply andb_true_iff in Hhex as [_ Hhex].
        cbn [list_ascii_of_string forallb] in Hhex.
        apply andb_true_iff in Hhex as [Hd _]. now apply hex_digit_not_space. }
      change (trim_start (String d s)) with (if is_space d then trim_start s else String d s) in Hs.
      rewrite Hd in Hs. rewrite Hs. reflexivity. }
    rewrite Htrim. cbn [strip_hash]. rewrite bool_decide_true by reflexivity.
    split; [exact Hhex | now left].
  - intros Hhex. rewrite (trim_hex_digits _ Hhex). cbn [strip_hash]. rewrite Hc.
    split; [exact Hhex | now right].
Qed.

Lemma label_color_is_bare_hex_witness :
  hex_digits (strip_hash (trim "#F00")) = true
  /\ ("#F00" = String "#"%char (strip_hash (trim "#F00")) \/ "#F00" = strip_hash (trim "#F00")).
Proof. apply (label_color_is_bare_hex "#F00"). reflexivity. Defined.

(** ** How a run ends *)

(** X19. A run that ends by exiting has issued no mutating call: it exits
    with code 1 exactly when the plan is invalid, and with code 0 when the
    plan is valid and the operator declined a confirmation.  A run whose
    resolution phase throws has issued no call either.  Only a run with a
    valid, confirmed plan reaches the target. *)
Theorem exit_leaves_target_untouched (tz : Z -> string) (opts : Options.t)
    (answers : Answers.t) (trello : Board.t) (map : MapFormat.t) (tgt : Target.t) :
  (forall code, Result.outcome (run tz opts answers trello map tgt) = Exited code ->
     Result.trace (run tz opts answers trello map tgt) = []
     /\ exists plan,
          makePlan opts trello map tgt = Some plan
          /\ ((code = 1 /\ planInvalid plan = true)
              \/ (code = 0 /\ planInvalid plan = false
                  /\ ((Plan.skippedLabels plan <> []
                       /\ Answers.continueWithSkipped answers = false)
                      \/ (hasExistingLabelsToCreate (Target.githubLabels tgt) plan = true
                          /\ Answers.createExisting answers = false)))))
  /\ (makePlan opts trello map tgt = None ->
      run tz opts answers trello map tgt = Result.mk [] [] Thrown).
Proof.
  unfold run. split.
  - intros code.
    destruct (makePlan opts trello map tgt) as [plan|]; [|discriminate].
    destruct (planInvalid plan) eqn:Hinv.
    { intros [= <-]. split; [reflexivity|]. exists plan. split; [reflexivity|]. now left. }
    destruct (nonempty_list (Plan.skippedLabels plan)
              && negb (Answers.continueWithSkipped answers)) eqn:Hskip.
    { intros [= <-]. split; [reflexivity|]. exists plan. split; [reflexivity|]. right.
      apply andb_true_iff in Hskip as [Hne Hno].
      apply nonempty_list_true in Hne. apply negb_true_iff in Hno.
      split; [reflexivity|]. split; [exact Hinv|]. left. now split. }
    destruct (hasExistingLabelsToCreate (Target.githubLabels tgt) plan
              && negb (Answers.createExisting answers)) eqn:Hexist.
    { intros [= <-]. split; [reflexivity|]. exists plan. split; [reflexivity|]. right.
      apply andb_true_iff in Hexist as [Hex Hno]. apply negb_true_iff in Hno.
      split; [reflexivity|]. split; [exact Hinv|]. right. now split. }
    destruct (execute tgt tz trello plan []) as [trace [u|]]; discriminate.
  - now intros ->.
Qed.

Lemma exit_leaves_target_untouched_witness :
  Result.trace
    (run Ex.date_string Ex.no_options (Answers.mk false true) Ex.board
       (MapFormat.mk (OwnerStr "octo") "repo" None [] [] [] []) (Ex.target []))
  = [].
Proof.
  apply (proj1 (exit_leaves_target_untouched Ex.date_string Ex.no_options
                  (Answers.mk false true) Ex.board
                  (MapFormat.mk (OwnerStr "octo") "repo" None [] [] [] []) (Ex.target []))
           0).
  vm_compute. reflexivity.
Defined.

(** ** What the synchroniser updates *)

Lemma toExistingItem_Some (node : ProjectNode.t) (item : ExistingItem.t) :
  toExistingItem node = Some item ->
  ExistingItem.id item = ProjectNode.id node
  /\ ProjectNode.content node = Some (ExistingItem.issueNumber item, ExistingItem.issueTitle item)
  /\ ExistingItem.issueNumber item <> 0.
Proof.
  unfold toExistingItem. destruct (ProjectNode.content node) as [[number title]|]; [|discriminate].
  destruct (bool_decide (number = 0)) eqn:Hn; [discriminate|].
  apply bool_decide_eq_false in Hn. cbn [negb]. intros [= <-]. now cbn.
Qed.

(** X20. Whatever the target answers, every call of the synchronisation
    pass is a status update of a project item that holds an issue (with a
    number other than 0) whose title is the name of a card of the plan; the
    option set is the one recorded for the list of the first card of that
    name.  Items without an issue, or whose title is no card's name, or whose
    card's list has no resolved status, are never updated. *)
Theorem sync_updates_are_justified (tgt : Target.t) (plan : Plan.t) (t : Trace) :
  exists calls,
    fst (syncExistingItems tgt plan t) = t ++ calls
    /\ forall c, In c calls ->
         exists info node number card expected,
           Plan.projectInfo plan = Some info
           /\ In node (concat (Target.projectItemPages tgt))
           /\ ProjectNode.content node = Some (number, Card.name card)
           /\ number <> 0
           /\ In card (Plan.cards plan)
           /\ Resolution.validStatusFields (Plan.resolution plan) !! Card.idList card
              = Some expected
           /\ c = UpdateItemStatus (ProjectInfo.projectId info) (ProjectNode.id node)
                    (ProjectInfo.statusFieldId info) (StatusOption.id expected).
Proof.
  set (P := fun c : Call =>
         exists info node number card expected,
           Plan.projectInfo plan = Some info
           /\ In node (concat (Target.projectItemPages tgt))
           /\ ProjectNode.content node = Some (number, Card.name card)
           /\ number <> 0
           /\ In card (Plan.cards plan)
           /\ Resolution.validStatusFields (Plan.resolution plan) !! Card.idList card
              = Some expected
           /\ c = UpdateItemStatus (ProjectInfo.projectId info) (ProjectNode.id node)
                    (ProjectInfo.statusFieldId info) (StatusOption.id expected)).
  assert (Hemits : emits P (syncExistingItems tgt plan)).
  { unfold syncExistingItems.
    destruct (Plan.projectInfo plan) as [info|] eqn:Hinfo; [|apply emits_ret].
    destruct (0 <? size _)%nat; [|apply emits_ret].
    destruct (nonempty_list _); [|apply emits_ret].
    apply emits_forM_. intros item Hitem.
    destruct (syncItem _ _ item) as [expected|] eqn:Hsync; [|apply emits_ret].
    eapply emits_one; [|reflexivity].
    rewrite getExistingProjectItems_concat in Hitem.
    apply in_concat in Hitem as (items & Hitems & Hitem).
    apply in_map_iff in Hitems as (nodes & <- & Hnodes).
    apply list_elem_of_In, list_elem_of_omap in Hitem as (node & Hnode & Hitem).
    apply list_elem_of_In in Hnode.
    apply toExistingItem_Some in Hitem as (Hid & Hcontent & Hnumber).
    apply syncItem_Some in Hsync as (card & Hcard & Hexpected & _).
    apply find_some in Hcard as [Hcard Htitle]. apply bool_decide_eq_true in Htitle.
    exists info, node, (ExistingItem.issueNumber item), card, expected.
    rewrite Htitle, <- Hid. repeat split; try assumption.
    apply in_concat. now exists nodes. }
  destruct (Hemits t) as (calls & Ht & HP). exists calls. split; [exact Ht|].
  now apply List.Forall_forall.
Qed.

(** ** The classes of resolved labels *)

(** X21. Every resolved label is counted in exactly one of the three classes
    the program reports: mapped (to create, mapped, or mapped from a list),
    missing (missing, or missing from a list), and skipped; the labels to
    create are among the mapped ones. *)
Theorem label_classes_partition (p : Plan.t) :
  Permutation (Plan.mappedLabels p ++ Plan.missingLabels p ++ Plan.skippedLabels p)
    (Plan.labels p)
  /\ (forall l, In l (Plan.labelsToCreate p) -> In l (Plan.mappedLabels p)).
Proof.
  unfold Plan.mappedLabels, Plan.missingLabels, Plan.skippedLabels, Plan.labelsToCreate.
  split.
  - induction (Plan.labels p) as [|l labels IH]; [reflexivity|].
    destruct l; cbn [List.filter app].
    + rewrite <- !Permutation_middle. now apply perm_skip.
    + now apply perm_skip.
    + now apply perm_skip.
    + rewrite <- Permutation_middle. now apply perm_skip.
    + rewrite <- Permutation_middle. now apply perm_skip.
    + now apply perm_skip.
  - intros l [Hin Hl]%filter_In. apply filter_In. split; [exact Hin|].
    now destruct l.
Qed.

(** ** The owner of the repository *)

(** X22. The three places that read the owner of the repository agree: the
    project query and the project-items query address the same kind of owner
    (an organization only for an owner object of type organization, a user
    otherwise) and the same login, which is the owner of the repository
    requests. *)
Theorem owner_reads_agree (owner : Owner) :
  projectInfo_queryTarget owner = existingItems_ownerType owner
  /\ projectInfo_queryLogin owner = existingItems_login owner
  /\ existingItems_login owner = repoData_owner owner
  /\ (projectInfo_queryTarget owner = owner_organization
      <-> exists login, owner = OwnerObj owner_organization login).
Proof.
  destruct owner as [[] login|login]; cbn; repeat split; try discriminate; eauto;
    intros [? [=]].
Qed.

Lemma sync_updates_are_justified_witness :
  exists info node number card expected,
    Plan.projectInfo Ex.sync_plan = Some info
    /\ In node (concat (Target.projectItemPages (Ex.target [Ex.nodes])))
    /\ ProjectNode.content node = Some (number, Card.name card)
    /\ number <> 0
    /\ In card (Plan.cards Ex.sync_plan)
    /\ Resolution.validStatusFields (Plan.resolution Ex.sync_plan) !! Card.idList card
       = Some expected
    /\ UpdateItemStatus "PVT_1" "IT1" "F1" "o1"
       = UpdateItemStatus (ProjectInfo.projectId info) (ProjectNode.id node)
           (ProjectInfo.statusFieldId info) (StatusOption.id expected).
Proof.
  destruct (sync_updates_are_justified (Ex.target [Ex.nodes]) Ex.sync_plan [])
    as (calls & Ht & Hcalls).
  apply Hcalls. vm_compute in Ht. rewrite <- Ht. now left.
Defined.

(** ** Labels on issues exist or are created *)

Lemma resolveLabel_sound (rules : list LabelRule) (gh : list GhLabel.t)
    (lists : list TrelloList.t) (trelloLabels : list TrelloLabel.t) (l : TrelloLabel.t) :
  In l trelloLabels -> label_sound gh lists trelloLabels (resolveLabel rules gh l).
Proof.
  intros Hl. unfold resolveLabel.
  destruct (find _ rules) as [[t ref|t name color]|]; cbn; try exact Hl.
  destruct (find (label_matches ref) gh) as [g|] eqn:Hfind; cbn; [|exact Hl].
  apply find_some in Hfind as [Hg _]. now split.
Qed.

Lemma resolveListRule_labels_sound (gl : list GhLabel.t) (gm : list MilestoneInfo.t)
    (projectInfo : option ProjectInfo.t) (lists : list TrelloList.t)
    (trelloLabels : list TrelloLabel.t) (st : Resolution.t) (rule : ListRule.t) :
  List.Forall (label_sound gl lists trelloLabels) (Resolution.labels st) ->
  List.Forall (label_sound gl lists trelloLabels)
    (Resolution.labels (resolveListRule gl gm projectInfo lists st rule)).
Proof.
  intros Hst. unfold resolveListRule.
  destruct (find (list_matches (ListRule.list rule)) lists) as [tl|] eqn:Hlist; [|exact Hst].
  apply find_some in Hlist as [Htl _]. unfold labelBlock.
  destruct (ListRule.label rule) as [ref|]; [destruct (truthy ref)|].
  - destruct (find (label_matches ref) gl) as [g|] eqn:Hfind; cbn [flow_bind flow_state].
    + apply find_some in Hfind as [Hg _]. rewrite later_blocks_keep_labels.
      cbn. apply Forall_app. split; [exact Hst|]. now repeat constructor.
    + cbn. apply Forall_app. split; [exact Hst|]. now repeat constructor.
  - cbn [flow_bind]. now rewrite later_blocks_keep_labels.
  - cbn [flow_bind]. now rewrite later_blocks_keep_labels.
Qed.

Lemma plan_labels_sound (opts : Options.t) (trello : Board.t) (map : MapFormat.t)
    (tgt : Target.t) (plan : Plan.t) :
  makePlan opts trello map tgt = Some plan ->
  List.Forall (label_sound (Target.githubLabels tgt) (Board.lists trello) (Board.labels trello))
    (Plan.labels plan).
Proof.
  intros (users & projectInfo & _ & _ & ->)%makePlan_Some.
  unfold Plan.labels. cbn [Plan.resolution Resolution.labels].
  set (st0 := Resolution.mk _ [] ∅ [] false ∅ [] []).
  assert (Hst0 : List.Forall
                   (label_sound (Target.githubLabels tgt) (Board.lists trello)
                      (Board.labels trello)) (Resolution.labels st0)).
  { unfold st0. cbn [Resolution.labels]. rewrite resolveLabels_map.
    apply List.Forall_forall. intros l (tl & <- & Htl)%in_map_iff.
    now apply resolveLabel_sound. }
  clearbody st0. unfold resolveListRules.
  revert st0 Hst0. induction (MapFormat.lists map) as [|rule rules IH]; intros st0 Hst0.
  - exact Hst0.
  - cbn [fold_left]. now apply IH, resolveListRule_labels_sound.
Qed.

Lemma getLabelsForCard_In (mappedLabels : list Label) (card : Card.t) (name : string) :
  In name (getLabelsForCard mappedLabels card) ->
  exists l, In l mappedLabels /\ label_github_name l = Some name.
Proof.
  unfold getLabelsForCard.
  set (fromLabels := omap _ (map TrelloLabel.name (Card.labels card))).
  assert (HfromLabels : forall n, In n fromLabels ->
            exists l, In l mappedLabels /\ label_github_name l = Some n).
  { intros n Hin. unfold fromLabels in Hin.
    apply list_elem_of_In, list_elem_of_omap in Hin as (trelloName & _ & Hfound).
    destruct (find _ mappedLabels) as [found|] eqn:Hfind; [|discriminate].
    apply find_some in Hfind as [Hin _]. now exists found. }
  destruct (find _ mappedLabels) as [listLabel|] eqn:Hlist; [|apply HfromLabels].
  apply find_some in Hlist as [Hin _].
  destruct (label_github_name listLabel) as [lname|] eqn:Hlname; [|apply HfromLabels].
  intros [Hname|[<-|[]]]%in_app_or; [now apply HfromLabels | now exists listLabel].
Qed.

(** X23. Every label name the program puts on an issue is the name of a
    label of the target snapshot or the name of a label the run creates
    first: skipped and missing labels never reach an issue. *)
Theorem issue_labels_exist_or_are_created (opts : Options.t) (trello : Board.t)
    (map : MapFormat.t) (tgt : Target.t) (plan : Plan.t) (card : Card.t) (name : string) :
  makePlan opts trello map tgt = Some plan ->
  In name (getLabelsForCard (Plan.mappedLabels plan) card) ->
  (exists g, In g (Target.githubLabels tgt) /\ GhLabel.name g = name)
  \/ (exists color, In (CreateLabel name color) (labelCalls plan)).
Proof.
  intros Hplan (l & Hl & Hname)%getLabelsForCard_In.
  pose proof (plan_labels_sound _ _ _ _ _ Hplan) as Hsound.
  unfold Plan.mappedLabels in Hl. apply filter_In in Hl as [Hl Hclass].
  pose proof (proj1 (List.Forall_forall _ _) Hsound l Hl) as Hsl.
  destruct l as [t|t tname color|t g|t ref|ref tl|g tl]; try discriminate.
  - right. injection Hname as <-.
    exists (option_map (fun c => strip_hash (trim c)) color).
    unfold labelCalls, Plan.labelsToCreate.
    apply list_elem_of_In, list_elem_of_omap. exists (toCreate t tname color).
    split; [|reflexivity]. apply list_elem_of_In, filter_In. now split.
  - left. injection Hname as <-. exists g. split; [apply Hsl | reflexivity].
  - left. injection Hname as <-. exists g. split; [apply Hsl | reflexivity].
Qed.

Lemma issue_labels_exist_or_are_created_witness :
  (exists g, In g (Target.githubLabels (Ex.target [])) /\ GhLabel.name g = "bug")
  \/ (exists color,
        In (CreateLabel "bug" color)
           (labelCalls
              (default Ex.sync_plan
                 (makePlan Ex.no_options Ex.board (Ex.mapping None []) (Ex.target []))))).
Proof.
  apply (issue_labels_exist_or_are_created Ex.no_options Ex.board (Ex.mapping None [])
           (Ex.target []) _ Ex.card1 "bug").
  - vm_compute. reflexivity.
  - vm_compute. now left.
Defined.

(** ** References that are zero *)

(** X24. A label, milestone or status reference that is the number 0 is
    falsy and is not evaluated: a list rule whose list exists and whose
    references are all absent or 0 changes nothing and reports nothing. *)
Theorem zero_references_are_ignored
    (gl : list GhLabel.t) (gm : list MilestoneInfo.t) (projectInfo : option ProjectInfo.t)
    (lists : list TrelloList.t) (st : Resolution.t) (rule : ListRule.t)
    (trelloList : TrelloList.t) :
  find (list_matches (ListRule.list rule)) lists = Some trelloList ->
  ListRule.label rule = None \/ ListRule.label rule = Some (RefInt 0) ->
  ListRule.milestone rule = None \/ ListRule.milestone rule = Some (RefInt 0) ->
  ListRule.status rule = None \/ ListRule.status rule = Some (RefInt 0) ->
  resolveListRule gl gm projectInfo lists st rule = st.
Proof.
  intros Hlist Hlabel Hmilestone Hstatus.
  unfold resolveListRule, labelBlock, milestoneBlock, statusBlock. rewrite Hlist.
  destruct Hlabel as [-> | ->], Hmilestone as [-> | ->], Hstatus as [-> | ->];
    cbn; now rewrite ?andb_false_r.
Qed.

Lemma zero_references_are_ignored_witness :
  resolveListRule [Ex.gh_bug] [Ex.v1] (Some Ex.project) [Ex.todo; Ex.done_] Resolution.init
    (ListRule.mk "Todo" (Some (RefInt 0)) true (Some (RefInt 0)) None)
  = Resolution.init.
Proof.
  apply (zero_references_are_ignored [Ex.gh_bug] [Ex.v1] (Some Ex.project)
           [Ex.todo; Ex.done_] Resolution.init
           (ListRule.mk "Todo" (Some (RefInt 0)) true (Some (RefInt 0)) None) Ex.todo).
  - reflexivity.
  - now right.
  - now left.
  - now right.
Defined.

(** ** A target that accepts every call *)






